(** * SATID support-level engine

    A shallow embedding of the support-level detection and constrained
    optimisation code of [generate_Fbis_Levels_Interactive.py] and of the
    risk-scoring functions of [SATID_core_calculations.py], followed by the
    properties of the specification that were checked against them.

    Numbers.  The Python code computes with IEEE doubles.  The optimiser
    only uses field operations and comparisons, so it is embedded over the
    rationals [Q] and stays executable; the scoring layer needs square
    roots and is embedded over the reals [R].  Rounding, infinities and
    NaN are not modelled, except where the code's branch structure depends
    on a division by zero (noted at the definition).

    Dates are day numbers in [Z]; a pandas Series is the list of its
    (index, value) rows; a Python exception is a [Raise] result. *)

From Stdlib Require Import ZArith QArith Qround Qreals Reals Psatz.
From stdpp Require Import base list sorting strings gmap.

(** ** Exceptions *)

Inductive exn : Type := ValueError | IndexError | ZeroDivisionError.

Inductive result (A : Type) : Type :=
  | Ok (a : A)
  | Raise (e : exn).
Arguments Ok {A} a.
Arguments Raise {A} e.

#[global] Instance result_ret : MRet result := @Ok.
#[global] Instance result_bind : MBind result := fun A B f m =>
  match m with
  | Ok a => f a
  | Raise e => Raise e
  end.

(** ** Rational comparisons as the code writes them *)

Definition Qltb (x y : Q) : bool := negb (Qle_bool y x).

Definition Qmax_b (x y : Q) : Q := if Qle_bool x y then y else x.
Definition Qmin_b (x y : Q) : Q := if Qle_bool y x then y else x.

Definition Qsum (l : list Q) : Q := foldr Qplus 0%Q l.

(** ** pandas Series over the rationals *)

Abbreviation Series := (list (Z * Q)) (only parsing).

Module Pandas.

(** [s.max()] and [s.min()]; [None] on an empty Series. *)
Definition series_max (vals : list Q) : option Q :=
  match vals with
  | [] => None
  | x :: tl => Some (foldl Qmax_b x tl)
  end.

Definition series_min (vals : list Q) : option Q :=
  match vals with
  | [] => None
  | x :: tl => Some (foldl Qmin_b x tl)
  end.

(** [s.idxmin()]: the index label of the first occurrence of the minimum;
    pandas raises ValueError on an empty Series. *)
Fixpoint argmin_from (best : Z * Q) (rest : Series) : Z * Q :=
  match rest with
  | [] => best
  | b :: tl =>
      if Qltb b.2 best.2 then argmin_from b tl else argmin_from best tl
  end.

Definition idxmin (s : Series) : result Z :=
  match s with
  | [] => Raise ValueError
  | b :: tl => Ok (argmin_from b tl).1
  end.

(** [s[mask]] for a boolean array: positional, and an IndexError when the
    mask and the Series differ in length. *)
Fixpoint select {A : Type} (mask : list bool) (l : list A) : list A :=
  match mask, l with
  | m :: mtl, x :: tl => if m then x :: select mtl tl else select mtl tl
  | _, _ => []
  end.

Definition bool_index {A : Type} (mask : list bool) (l : list A)
  : result (list A) :=
  if (length mask =? length l)%nat then Ok (select mask l)
  else Raise IndexError.

(** [s.ewm(span=span, adjust=False).mean()]:
    y_0 = x_0 and y_t = (1 - alpha) y_(t-1) + alpha x_t, alpha = 2/(span+1).
    (pandas rejects span < 1; every configured period is at least 16.) *)
Fixpoint ewm_loop (alpha prev : Q) (rest : list Q) : list Q :=
  match rest with
  | [] => []
  | x :: tl =>
      let y := ((1 - alpha) * prev + alpha * x)%Q in
      y :: ewm_loop alpha y tl
  end.

Definition ewm_mean (span : Z) (xs : list Q) : list Q :=
  match xs with
  | [] => []
  | x :: tl => x :: ewm_loop (2 / (inject_Z span + 1))%Q x tl
  end.

End Pandas.

(** ** generate_Fbis_Levels_Interactive.py *)

Module Fbis.
Import Pandas.

#[local] Open Scope string_scope.

(** *** Configuration *)

Definition SUPPORT_TEST_REWARD : Q := 1.0.
Definition BREACH_PENALTY : Q := 3.0.
Definition TOUCH_TOLERANCE_PCT : Q := 2.5.

Definition ASSET_CLASSES : gmap string string :=
  list_to_map
    [ ("SPY", "large_cap"); ("VGK", "large_cap"); ("EWG", "large_cap");
      ("EWQ", "large_cap"); ("EWI", "large_cap"); ("EWJ", "large_cap");
      ("QQQ", "growth_tech"); ("XLK", "growth_tech"); ("XLY", "growth_tech");
      ("HYS", "bond_hy"); ("EMB", "bond_hy"); ("CEMB", "bond_hy");
      ("BIL", "bond_ig"); ("IGSB", "bond_ig"); ("IGIB", "bond_ig");
      ("LQD", "bond_ig");
      ("XLV", "sector"); ("XLI", "sector"); ("XLC", "sector");
      ("SMH", "sector"); ("HEAL", "sector"); ("PPA", "sector");
      ("PAVE", "sector");
      ("EWZ", "emerging"); ("INDA", "emerging"); ("MCHI", "emerging");
      ("ARKF", "thematic"); ("AIQ", "thematic"); ("EBIZ", "thematic");
      ("BKCH", "thematic"); ("QTUM", "thematic"); ("ARKX", "thematic");
      ("ESPO", "thematic"); ("GLD", "thematic"); ("FTLS", "thematic");
      ("QAI", "thematic"); ("WTMF", "thematic") ].

(** Python's [range(start, stop, step)] for a positive step. *)
Definition py_range (start stop step : Z) : list Z :=
  map (fun i => (start + Z.of_nat i * step)%Z)
      (seq 0 (Z.to_nat ((stop - start + step - 1) / step))).

(** [np.arange(start, stop, step)]: ceil((stop - start)/step) values
    start + i*step, here in exact arithmetic. *)
Definition np_arange (start stop step : Q) : list Q :=
  map (fun i => (start + inject_Z (Z.of_nat i) * step)%Q)
      (seq 0 (Z.to_nat (Qceiling ((stop - start) / step)))).

Record Profile : Type := {
  ema_range : list Z;
  shift_range : list Q
}.

Definition large_cap : Profile :=
  {| ema_range := py_range 18 25 2;
     shift_range := np_arange (-0.06) (-0.015) 0.005 |}.

Definition CONSTRAINTS : gmap string Profile :=
  list_to_map
    [ ("large_cap", large_cap);
      ("growth_tech",
        {| ema_range := py_range 18 25 2;
           shift_range := np_arange (-0.07) (-0.015) 0.005 |});
      ("bond_hy",
        {| ema_range := py_range 16 21 2;
           shift_range := np_arange (-0.03) 0.005 0.005 |});
      ("bond_ig",
        {| ema_range := py_range 16 21 2;
           shift_range := np_arange (-0.02) 0.005 0.005 |});
      ("sector",
        {| ema_range := py_range 18 27 2;
           shift_range := np_arange (-0.08) (-0.015) 0.005 |});
      ("emerging",
        {| ema_range := py_range 18 25 2;
           shift_range := np_arange (-0.10) (-0.025) 0.005 |});
      ("thematic",
        {| ema_range := py_range 20 29 2;
           shift_range := np_arange (-0.12) (-0.025) 0.005 |}) ].

(** *** Trend detection *)

Record SwingPoint : Type := { sw_date : Z; sw_price : Q }.

(** The body shared by [find_swing_highs] and [find_swing_lows]: the
    extremum of the slice [i-window : i+window+1] is compared with the
    value at [i], for i in range(window, len - window). *)
Definition find_swings (extremum : list Q -> option Q)
    (series : Series) (window : nat) : list SwingPoint :=
  omap (fun i =>
          match series !! i with
          | Some (d, p) =>
              match extremum (take (2 * window + 1)
                                   (drop (i - window) series.*2)) with
              | Some m =>
                  if Qeq_bool p m
                  then Some {| sw_date := d; sw_price := p |}
                  else None
              | None => None
              end
          | None => None
          end)
       (seq window (length series - window - window)).

Definition find_swing_highs (high_series : Series) (window : nat)
  : list SwingPoint :=
  find_swings series_max high_series window.

Definition find_swing_lows (low_series : Series) (window : nat)
  : list SwingPoint :=
  find_swings series_min low_series window.

(** The inner loop of [identify_lower_highs]: extend the sequence while
    each next swing high is strictly below the last one taken. *)
Fixpoint lower_run (last : SwingPoint) (rest : list SwingPoint)
  : list SwingPoint :=
  match rest with
  | [] => []
  | h :: tl =>
      if Qltb (sw_price h) (sw_price last) then h :: lower_run h tl else []
  end.

(** [max(sequences, key=len)]: the first sequence of maximal length. *)
Fixpoint max_by_len {A : Type} (best : list A) (rest : list (list A))
  : list A :=
  match rest with
  | [] => best
  | s :: tl =>
      if (length best <? length s)%nat then max_by_len s tl
      else max_by_len best tl
  end.

Definition identify_lower_highs (swing_highs : list SwingPoint)
    (min_highs : nat) : list SwingPoint :=
  if (length swing_highs <? min_highs)%nat then []
  else
    let sequences :=
      omap (fun start_idx =>
              match drop start_idx swing_highs with
              | h :: tl =>
                  let sequence := h :: lower_run h tl in
                  if (min_highs <=? length sequence)%nat
                  then Some sequence else None
              | [] => None
              end)
           (seq 0 (length swing_highs - 1)) in
    match sequences with
    | [] => []
    | s :: tl => max_by_len s tl
    end.

Record DowntrendLine : Type := {
  slope : Q;
  intercept : Q;
  r_squared : Q;
  first_date : Z
}.

Definition resistance_at_date (line : DowntrendLine) (date : Z) : Q :=
  (slope line * inject_Z (date - first_date line) + intercept line)%Q.

Definition Qmean (l : list Q) : Q := (Qsum l / inject_Z (Z.of_nat (length l)))%Q.

(** [scipy.stats.linregress(x, y)]: the least-squares line, from the
    (biased) covariance matrix of x and y.  It raises ValueError when all
    x are identical.  Returns (slope, intercept, r_value ** 2). *)
Definition linregress (xs ys : list Q) : result (Q * Q * Q) :=
  let xmean := Qmean xs in
  let ymean := Qmean ys in
  let ssxm := Qmean (map (fun x => (x - xmean) * (x - xmean))%Q xs) in
  let ssym := Qmean (map (fun y => (y - ymean) * (y - ymean))%Q ys) in
  let ssxym :=
    Qmean (zip_with (fun x y => (x - xmean) * (y - ymean))%Q xs ys) in
  if Qeq_bool ssxm 0 then Raise ValueError
  else
    let slope := (ssxym / ssxm)%Q in
    let intercept := (ymean - slope * xmean)%Q in
    let r2 :=
      if Qeq_bool ssym 0 then 0%Q
      else Qmin_b 1 ((ssxym * ssxym) / (ssxm * ssym))%Q in
    Ok (slope, intercept, r2).

(** Python's [None] result is the inner [None]. *)
Definition create_downtrend_line (lower_highs : list SwingPoint)
  : result (option DowntrendLine) :=
  match lower_highs with
  | first :: _ :: _ =>
      let first_date := sw_date first in
      let dates_numeric :=
        map (fun h => inject_Z (sw_date h - first_date)) lower_highs in
      let prices := map sw_price lower_highs in
      '(slope, intercept, r2) ← linregress dates_numeric prices;
      Ok (Some {| slope := slope; intercept := intercept;
                  r_squared := r2; first_date := first_date |})
  | _ => Ok None
  end.

Record Breakout : Type := { bk_date : Z; bk_price : Q }.

Definition detect_breakout (close_series : Series)
    (downtrend_line : option DowntrendLine) (start_after_date : Z)
  : option Breakout :=
  match downtrend_line with
  | None => None
  | Some line =>
      let check_data :=
        List.filter (fun b => (start_after_date <? b.1)%Z) close_series in
      match List.find (fun b => Qltb (resistance_at_date line b.1) b.2)
                      check_data with
      | Some (date, price) => Some {| bk_date := date; bk_price := price |}
      | None => None
      end
  end.

Record Confirmation : Type := { cf_date : Z; confirmed : bool }.

(** [pd.DateOffset(weeks=n)] is 7n days. *)
Definition confirm_higher_low (low_series : Series)
    (breakout_info : option Breakout) (pre_breakout_low : SwingPoint)
    (weeks_to_wait : Z) : result (option Confirmation) :=
  match breakout_info with
  | None => Ok None
  | Some bk =>
      let breakout_date := bk_date bk in
      let confirmation_window :=
        List.filter
          (fun b => (breakout_date <? b.1)%Z
                    && (b.1 <=? breakout_date + 7 * weeks_to_wait)%Z)
          low_series in
      match series_min confirmation_window.*2 with
      | None => Ok None
      | Some pullback_low_price =>
          if Qltb (sw_price pre_breakout_low) pullback_low_price then
            d ← idxmin confirmation_window;
            Ok (Some {| cf_date := d; confirmed := true |})
          else Ok None
      end
  end.

(** The second component of the result of [detect_trend_change]: the dict
    with the optional keys 'breakout' and 'confirmation'. *)
Record DetectionInfo : Type := {
  info_breakout : option Breakout;
  info_confirmation : option Confirmation
}.

Definition no_info : DetectionInfo :=
  {| info_breakout := None; info_confirmation := None |}.

Definition detect_trend_change (close_series high_series low_series : Series)
  : result (Z * DetectionInfo) :=
  let fallback := d ← idxmin close_series; Ok (d, no_info) in
  let swing_highs := find_swing_highs high_series 4 in
  if (length swing_highs <? 2)%nat then fallback
  else
    let lower_highs := identify_lower_highs swing_highs 2 in
    if (length lower_highs <? 2)%nat then fallback
    else
      downtrend_line ← create_downtrend_line lower_highs;
      match downtrend_line with
      | None => fallback
      | Some _ =>
          match last lower_highs with
          | None => Raise IndexError
          | Some last_high =>
              match detect_breakout close_series downtrend_line
                                    (sw_date last_high) with
              | None => fallback
              | Some breakout =>
                  let swing_lows := find_swing_lows low_series 4 in
                  let pre_breakout_lows :=
                    List.filter
                      (fun l => (sw_date l <? bk_date breakout)%Z)
                      swing_lows in
                  let only_breakout :=
                    {| info_breakout := Some breakout;
                       info_confirmation := None |} in
                  match last pre_breakout_lows with
                  | None => Ok (bk_date breakout, only_breakout)
                  | Some pre_low =>
                      confirmation ←
                        confirm_higher_low low_series (Some breakout)
                                           pre_low 12;
                      match confirmation with
                      | Some c =>
                          if confirmed c then
                            Ok (cf_date c,
                                {| info_breakout := Some breakout;
                                   info_confirmation := Some c |})
                          else Ok (bk_date breakout, only_breakout)
                      | None => Ok (bk_date breakout, only_breakout)
                      end
                  end
              end
          end
      end.

(** *** The constrained optimiser *)

Record ConstrainedFbisOptimizer : Type := {
  ticker : string;
  close : Series;
  high : Series;
  low : Series;
  asset_class : string;
  constraints : Profile;
  trend_start : Z;
  detection_info : DetectionInfo
}.

(** [ASSET_CLASSES.get(ticker, 'large_cap')] *)
Definition resolve_asset_class (ticker : string) : string :=
  default "large_cap" (ASSET_CLASSES !! ticker).

(** [CONSTRAINTS.get(asset_class, CONSTRAINTS['large_cap'])] *)
Definition resolve_constraints (asset_class : string) : Profile :=
  default large_cap (CONSTRAINTS !! asset_class).

(** [ConstrainedFbisOptimizer.__init__] *)
Definition init (ticker : string) (close_series high_series low_series : Series)
  : result ConstrainedFbisOptimizer :=
  let asset_class := resolve_asset_class ticker in
  let constraints := resolve_constraints asset_class in
  '(trend_start, detection_info) ←
    detect_trend_change close_series high_series low_series;
  Ok {| ticker := ticker; close := close_series; high := high_series;
        low := low_series; asset_class := asset_class;
        constraints := constraints; trend_start := trend_start;
        detection_info := detection_info |}.

(** [_calculate_ema]: the EMA of the whole close series. *)
Definition _calculate_ema (self : ConstrainedFbisOptimizer) (period : Z)
  : list Q :=
  ewm_mean period (close self).*2.

(** The dict returned by [optimize]; the fixed default has no
    'asset_class' key. *)
Record OptResult : Type := {
  res_period : Z;
  res_shift : Q;
  res_tests : nat;
  res_breaches : nat;
  res_score : Q;
  res_trend_start : Z;
  res_asset_class : option string
}.

Definition default_result (trend_start : Z) : OptResult :=
  {| res_period := 20; res_shift := -0.05; res_tests := 0;
     res_breaches := 0; res_score := 0; res_trend_start := trend_start;
     res_asset_class := None |}.

Inductive BarClass : Type := SupportTest | Breach | Unclassified.

(** The body of the weekly loop.  With numpy doubles a zero [fbis_level]
    makes [distance_pct] infinite or NaN, so the tolerance test fails. *)
Definition classify_bar (fbis_level low_price close_price : Q) : BarClass :=
  let distance_pct := (((low_price - fbis_level) / fbis_level) * 100)%Q in
  if negb (Qeq_bool fbis_level 0)
     && Qle_bool (- TOUCH_TOLERANCE_PCT) distance_pct
     && Qle_bool distance_pct TOUCH_TOLERANCE_PCT
  then
    if Qle_bool fbis_level close_price then SupportTest else Unclassified
  else if Qltb close_price fbis_level then Breach
  else Unclassified.

(** The weekly loop: (support_tests, breaches) after all bars. *)
Fixpoint count_bars (fbis_line opt_low opt_close : list Q)
    (support_tests breaches : nat) : nat * nat :=
  match fbis_line, opt_low, opt_close with
  | fbis_level :: ftl, low_price :: ltl, close_price :: ctl =>
      match classify_bar fbis_level low_price close_price with
      | SupportTest => count_bars ftl ltl ctl (S support_tests) breaches
      | Breach => count_bars ftl ltl ctl support_tests (S breaches)
      | Unclassified => count_bars ftl ltl ctl support_tests breaches
      end
  | _, _, _ => (support_tests, breaches)
  end.

Definition score_of (support_tests breaches : nat) : Q :=
  (inject_Z (Z.of_nat support_tests) * SUPPORT_TEST_REWARD
   - inject_Z (Z.of_nat breaches) * BREACH_PENALTY)%Q.

(** [opt_mask = self.close.index >= self.trend_start] *)
Definition opt_mask (self : ConstrainedFbisOptimizer) : list bool :=
  map (fun b => (trend_start self <=? b.1)%Z) (close self).

(** [fbis_line = ema * (1 + shift)] with [ema = ema_full[opt_mask]]. *)
Definition fbis_line (self : ConstrainedFbisOptimizer) (period : Z)
    (shift : Q) : list Q :=
  let ema_full := _calculate_ema self period in
  let ema := select (opt_mask self) ema_full in
  map (fun e => (e * (1 + shift))%Q) ema.

Definition evaluate (self : ConstrainedFbisOptimizer)
    (opt_low opt_close : list Q) (period : Z) (shift : Q) : nat * nat :=
  count_bars (fbis_line self period shift) opt_low opt_close 0 0.

(** One pass of the inner loop body: score the candidate and keep it when
    it is strictly better than the best so far. *)
Definition consider (self : ConstrainedFbisOptimizer)
    (opt_low opt_close : list Q) (st : option OptResult * Q)
    (cand : Z * Q) : option OptResult * Q :=
  let '(period, shift) := cand in
  let '(support_tests, breaches) :=
    evaluate self opt_low opt_close period shift in
  let score := score_of support_tests breaches in
  if Qltb st.2 score then
    (Some {| res_period := period; res_shift := shift;
             res_tests := support_tests; res_breaches := breaches;
             res_score := score; res_trend_start := trend_start self;
             res_asset_class := Some (asset_class self) |},
     score)
  else st.

Definition grid_search (self : ConstrainedFbisOptimizer)
    (opt_low opt_close : list Q) : option OptResult * Q :=
  foldl (fun st period =>
           foldl (fun st shift =>
                    consider self opt_low opt_close st (period, shift))
                 st (shift_range (constraints self)))
        (None, (-999999)%Q) (ema_range (constraints self)).

Definition optimize (self : ConstrainedFbisOptimizer) : result OptResult :=
  let opt_close := select (opt_mask self) (close self).*2 in
  opt_low ← bool_index (opt_mask self) (low self).*2;
  if (length opt_close <? 10)%nat then Ok (default_result (trend_start self))
  else
    match (grid_search self opt_low opt_close).1 with
    | Some best => Ok best
    | None => Ok (default_result (trend_start self))
    end.

(** *** The batch runner *)








End Fbis.

(** ** SATID_core_calculations.py *)

Module Core.

#[local] Open Scope string_scope.
#[local] Open Scope R_scope.

(** *** EMA and FBIS *)

Fixpoint ema_loop (k prev : R) (rest : list R) : list R :=
  match rest with
  | [] => []
  | p :: tl =>
      let e := p * k + prev * (1 - k) in
      e :: ema_loop k e tl
  end.

(** [ema[0] = prices[0]] raises IndexError on an empty array, and
    [2 / (period + 1)] raises ZeroDivisionError for period = -1. *)
Definition calculate_ema (prices : list R) (period : Z) : result (list R) :=
  match prices with
  | [] => Raise IndexError
  | p0 :: tl =>
      if (period + 1 =? 0)%Z then Raise ZeroDivisionError
      else Ok (p0 :: ema_loop (2 / IZR (period + 1)) p0 tl)
  end.

(** *** The persisted parameter record *)

(** One entry of the record: a dict that may lack either key. *)
Record ParamEntry : Type := {
  entry_period : option Z;
  entry_shift : option R
}.

(** [fbis_params.get(ticker, {}).get('period', 8)] *)
Definition get_period (fbis_params : gmap string ParamEntry)
    (ticker : string) : Z :=
  default 8%Z (fbis_params !! ticker ≫= entry_period).

(** [fbis_params.get(ticker, {}).get('shift', 0)] *)
Definition get_shift (fbis_params : gmap string ParamEntry)
    (ticker : string) : R :=
  default 0 (fbis_params !! ticker ≫= entry_shift).

(** *** Portfolio time series *)

(** The OHLC table after [read_csv] and the sort by date: the dates and
    the numeric columns, every column as long as the date column. *)
Record Frame : Type := {
  fr_dates : list Z;
  fr_columns : gmap string (list R)
}.

Definition vec_add (a b : list R) : list R := zip_with Rplus a b.

(** The body of the loop over [allocations.items()]. *)
Definition series_step (df : Frame) (fbis_params : gmap string ParamEntry)
    (acc : list R * list R) (item : string * R)
  : result (list R * list R) :=
  let '(ticker, weight) := item in
  let '(portfolio_values, portfolio_fbis) := acc in
  let close_col := ticker +:+ "_close" in
  match fr_columns df !! close_col with
  | None => Ok acc
  | Some prices =>
      let period := get_period fbis_params ticker in
      let shift := get_shift fbis_params ticker in
      ema ← calculate_ema prices period;
      let fbis := map (fun e => e * (1 + shift)) ema in
      match prices with
      | [] => Raise IndexError
      | p0 :: _ =>
          Ok (vec_add portfolio_values
                      (map (fun p => p / p0 * weight) prices),
              vec_add portfolio_fbis
                      (map (fun f => f / p0 * weight) fbis))
      end
  end.

Fixpoint series_loop (df : Frame) (fbis_params : gmap string ParamEntry)
    (allocations : list (string * R)) (acc : list R * list R)
  : result (list R * list R) :=
  match allocations with
  | [] => Ok acc
  | item :: rest =>
      acc' ← series_step df fbis_params acc item;
      series_loop df fbis_params rest acc'
  end.

(** [allocations] is a dict iterated in insertion order. *)
Definition calculate_portfolio_series (df : Frame)
    (allocations : list (string * R))
    (fbis_params : gmap string ParamEntry)
  : result (list Z * list R * list R) :=
  let n_periods := length (fr_dates df) in
  '(portfolio_values, portfolio_fbis) ←
    series_loop df fbis_params allocations
                (repeat 0 n_periods, repeat 0 n_periods);
  Ok (fr_dates df, portfolio_values, portfolio_fbis).

(** *** Volatility *)

(** The slice [l[-k:]]. *)
Definition tail_slice {A : Type} (k : Z) (l : list A) : list A :=
  if (0 <? k)%Z then drop (length l - Z.to_nat k) l
  else drop (Z.to_nat (- k)) l.

(** [np.diff] *)
Definition np_diff (a : list R) : list R :=
  zip_with (fun x y => y - x) a (tail a).

Definition Rsum (l : list R) : R := foldr Rplus 0 l.

(** [np.std(a, ddof=1)] *)
Definition np_std1 (a : list R) : R :=
  let n := INR (length a) in
  let mean := Rsum a / n in
  sqrt (Rsum (map (fun x => (x - mean) * (x - mean)) a) / (n - 1)).

Definition calculate_etf_volatility (prices : list R) (weeks : Z) : R :=
  let weeks :=
    if (Z.of_nat (length prices) <? weeks + 1)%Z
    then (Z.of_nat (length prices) - 1)%Z else weeks in
  let recent_prices := tail_slice (weeks + 1) prices in
  let returns :=
    zip_with Rdiv (np_diff recent_prices) (removelast recent_prices) in
  np_std1 returns.

(** *** SATID score *)

Definition z_score_of (distance_pct volatility_weekly horizon_weeks : R)
  : R :=
  let volatility_horizon := volatility_weekly * sqrt horizon_weeks in
  distance_pct / volatility_horizon.

Definition calculate_satid_score_linear
    (distance_pct volatility_weekly horizon_weeks : R) : R :=
  if Rle_dec distance_pct 0 then 100
  else
    let z_score := z_score_of distance_pct volatility_weekly horizon_weeks in
    let score := 100 - z_score * 25 in
    Rmax 0 (Rmin 100 score).

Record EtfRisk : Type := {
  risk_ticker : string;
  current_price : R;
  fbis : R;
  distance_pct : R;
  volatility_weekly : R;
  satid_score_1week : R;
  satid_score_1month : R;
  allocation : R;
  contribution_1week : R;
  contribution_1month : R
}.

Definition analyze_etf_risk (ticker : string) (prices : list R)
    (fbis_params : gmap string ParamEntry) (weeks_lookback : Z)
  : result EtfRisk :=
  match last prices with
  | None => Raise IndexError
  | Some current_price =>
      let period := get_period fbis_params ticker in
      let shift := get_shift fbis_params ticker in
      ema ← calculate_ema prices period;
      match last ema with
      | None => Raise IndexError
      | Some ema_last =>
          let fbis := ema_last * (1 + shift) in
          let distance_pct := (current_price - fbis) / current_price in
          let volatility := calculate_etf_volatility prices weeks_lookback in
          let score_1week :=
            calculate_satid_score_linear distance_pct volatility 1 in
          let score_1month :=
            calculate_satid_score_linear distance_pct volatility 4.33 in
          Ok {| risk_ticker := ticker; current_price := current_price;
                fbis := fbis; distance_pct := distance_pct;
                volatility_weekly := volatility;
                satid_score_1week := score_1week;
                satid_score_1month := score_1month;
                allocation := 0; contribution_1week := 0;
                contribution_1month := 0 |}
      end
  end.

(** *** Portfolio exposure *)

Record RiskRow : Type := {
  row_ticker : string;
  row_asset_class : string;
  row_allocation : R;
  row_pct_to_support : R;
  row_usd_at_risk : R
}.

Record ClassSummary : Type := {
  sum_weight : R;
  sum_avg_dist : R;
  sum_usd_at_risk : R;
  sum_count : nat
}.

Definition empty_summary : ClassSummary :=
  {| sum_weight := 0; sum_avg_dist := 0; sum_usd_at_risk := 0;
     sum_count := 0 |}.

(** The body of the loop over [allocations.items()]. *)
Definition risk_step (df : Frame) (asset_classes : gmap string string)
    (fbis_params : gmap string ParamEntry) (portfolio_value : R)
    (acc : list RiskRow * gmap string ClassSummary) (item : string * R)
  : result (list RiskRow * gmap string ClassSummary) :=
  let '(ticker, allocation_pct) := item in
  let '(risk_data, asset_class_summary) := acc in
  let close_col := ticker +:+ "_close" in
  match fr_columns df !! close_col with
  | None => Ok acc
  | Some prices =>
      match last prices with
      | None => Raise IndexError
      | Some current_price =>
          let period := get_period fbis_params ticker in
          let shift := get_shift fbis_params ticker in
          ema ← calculate_ema prices period;
          match last ema with
          | None => Raise IndexError
          | Some ema_last =>
              let fbis_support := ema_last * (1 + shift) in
              let pct_to_support :=
                ((current_price - fbis_support) / current_price) * 100 in
              let position_value := portfolio_value * (allocation_pct / 100) in
              let usd_at_risk := position_value * (- pct_to_support / 100) in
              let asset_class := default "Unknown" (asset_classes !! ticker) in
              let row :=
                {| row_ticker := ticker; row_asset_class := asset_class;
                   row_allocation := allocation_pct;
                   row_pct_to_support := pct_to_support;
                   row_usd_at_risk := usd_at_risk |} in
              let s := default empty_summary
                               (asset_class_summary !! asset_class) in
              let s' :=
                {| sum_weight := sum_weight s + allocation_pct;
                   sum_avg_dist :=
                     sum_avg_dist s + pct_to_support * allocation_pct;
                   sum_usd_at_risk := sum_usd_at_risk s + usd_at_risk;
                   sum_count := S (sum_count s) |} in
              Ok ((risk_data ++ [row])%list,
                  <[asset_class := s']> asset_class_summary)
          end
      end
  end.

Fixpoint risk_loop (df : Frame) (asset_classes : gmap string string)
    (fbis_params : gmap string ParamEntry) (portfolio_value : R)
    (allocations : list (string * R))
    (acc : list RiskRow * gmap string ClassSummary)
  : result (list RiskRow * gmap string ClassSummary) :=
  match allocations with
  | [] => Ok acc
  | item :: rest =>
      acc' ← risk_step df asset_classes fbis_params portfolio_value acc item;
      risk_loop df asset_classes fbis_params portfolio_value rest acc'
  end.

(** The closing loop: the weighted distance becomes an average. *)
Definition finish_summary (s : ClassSummary) : ClassSummary :=
  let w := sum_weight s in
  {| sum_weight := w;
     sum_avg_dist := if Rlt_dec 0 w then sum_avg_dist s / w else 0;
     sum_usd_at_risk := sum_usd_at_risk s;
     sum_count := sum_count s |}.

Definition calculate_portfolio_risk (df : Frame)
    (allocations : list (string * R)) (asset_classes : gmap string string)
    (fbis_params : gmap string ParamEntry) (portfolio_value : R)
  : result (list RiskRow * gmap string ClassSummary) :=
  match risk_loop df asset_classes fbis_params portfolio_value allocations
                  ([], ∅) with
  | Ok (risk_data, asset_class_summary) =>
      Ok (risk_data, finish_summary <$> asset_class_summary)
  | Raise e => Raise e
  end.

(** *** Individual volatilities *)

(** [df.tail(n)]: the last n rows; no row for n = 0; for a negative n all
    rows but the first -n. *)
Definition pd_tail {A : Type} (n : Z) (l : list A) : list A :=
  if (n =? 0)%Z then []
  else if (0 <? n)%Z then drop (length l - Z.to_nat n) l
  else drop (Z.to_nat (- n)) l.

(** The table is the one read and sorted by date; the result dict is a
    map from ticker to weekly volatility. *)
Definition calculate_individual_volatilities (df : Frame)
    (tickers : list string) (weeks : Z) : gmap string R :=
  foldl (fun volatilities ticker =>
           let close_col := ticker +:+ "_close" in
           match fr_columns df !! close_col with
           | Some column =>
               let prices := pd_tail (weeks + 1) column in
               let returns :=
                 zip_with Rdiv (np_diff prices) (removelast prices) in
               <[ticker := np_std1 returns]> volatilities
           | None => volatilities
           end)
        ∅ tickers.

(** *** Portfolio SATID scores *)

(** The in-place update of one result dict. *)
Definition with_allocation (weight : R) (result : EtfRisk) : EtfRisk :=
  {| risk_ticker := risk_ticker result;
     current_price := current_price result;
     fbis := fbis result;
     distance_pct := distance_pct result;
     volatility_weekly := volatility_weekly result;
     satid_score_1week := satid_score_1week result;
     satid_score_1month := satid_score_1month result;
     allocation := weight;
     contribution_1week := satid_score_1week result * weight;
     contribution_1month := satid_score_1month result * weight |}.

Fixpoint satid_scores_loop (etf_results : list EtfRisk)
    (allocations : gmap string R)
    (portfolio_score_1week portfolio_score_1month : R)
  : R * R * list EtfRisk :=
  match etf_results with
  | [] => (portfolio_score_1week, portfolio_score_1month, [])
  | result :: rest =>
      let ticker := risk_ticker result in
      let weight := default 0 (allocations !! ticker) in
      let '(score_1week, score_1month, updated) :=
        satid_scores_loop rest allocations
          (portfolio_score_1week + satid_score_1week result * weight)
          (portfolio_score_1month + satid_score_1month result * weight) in
      (score_1week, score_1month, with_allocation weight result :: updated)
  end.

(** Returns the two portfolio scores; the third component is the list of
    result dicts as the function leaves them (it updates them in place). *)
Definition calculate_portfolio_satid_scores (etf_results : list EtfRisk)
    (allocations : gmap string R) : R * R * list EtfRisk :=
  satid_scores_loop etf_results allocations 0 0.

(** *** Risk level *)

Definition get_risk_level_class (score : R) : string * string :=
  if Rle_dec 90 score then ("risk-critical", "CRITICAL")
  else if Rle_dec 75 score then ("risk-high", "HIGH")
  else if Rle_dec 50 score then ("risk-moderate", "MODERATE")
  else if Rle_dec 25 score then ("risk-low", "LOW")
  else ("risk-minimal", "MINIMAL").

End Core.

(** ** Portfolio_Risk_Dashboard.py and SATID_Risk_Score.py *)

Module Dashboard.

#[local] Open Scope string_scope.
#[local] Open Scope R_scope.

(** [get_risk_color_and_label] of Portfolio_Risk_Dashboard.py *)
Definition get_risk_color_and_label (score : R) : string * string :=
  if Rle_dec 90 score then ("#c0392b", "CRITICAL")
  else if Rle_dec 75 score then ("#e74c3c", "HIGH")
  else if Rle_dec 50 score then ("#f39c12", "MODERATE")
  else if Rle_dec 25 score then ("#27ae60", "LOW")
  else ("#16a085", "MINIMAL").

(** [get_risk_color_hex] of SATID_Risk_Score.py *)
Definition get_risk_color_hex (score : R) : string :=
  if Rle_dec 90 score then "C0392B"
  else if Rle_dec 75 score then "E74C3C"
  else if Rle_dec 50 score then "F39C12"
  else if Rle_dec 25 score then "27AE60"
  else "16A085".

(** The analysis loop of [main] in both scripts: every allocated ticker
    with a close column is analysed with the default lookback of 13. *)
Fixpoint analyze_all (df : Core.Frame)
    (fbis_params : gmap string Core.ParamEntry) (tickers : list string)
  : result (list Core.EtfRisk) :=
  match tickers with
  | [] => Ok []
  | ticker :: rest =>
      let close_col := ticker +:+ "_close" in
      match Core.fr_columns df !! close_col with
      | None => analyze_all df fbis_params rest
      | Some prices =>
          result ← Core.analyze_etf_risk ticker prices fbis_params 13;
          etf_results ← analyze_all df fbis_params rest;
          Ok (result :: etf_results)
      end
  end.

(** The scores [main] reports: the loop above followed by
    [calculate_portfolio_satid_scores].  [allocations] is the dict of
    [get_active_etfs_with_allocations], in insertion order. *)
Definition portfolio_scores (df : Core.Frame)
    (allocations : list (string * R))
    (fbis_params : gmap string Core.ParamEntry)
  : result (R * R * list Core.EtfRisk) :=
  etf_results ← analyze_all df fbis_params allocations.*1;
  Ok (Core.calculate_portfolio_satid_scores etf_results
        (list_to_map allocations)).

End Dashboard.

(** ** Notions of the specification and example data *)

Module Spec.
Import Pandas Fbis.

#[local] Open Scope string_scope.

(** The width of a candidate range: largest minus smallest candidate. *)
Definition Z_span (l : list Z) : Z :=
  match l with
  | [] => 0
  | x :: tl => foldl Z.max x tl - foldl Z.min x tl
  end.

Definition Q_span (l : list Q) : Q :=
  match l with
  | [] => 0
  | x :: tl => foldl Qmax_b x tl - foldl Qmin_b x tl
  end.

(** A profile is the widest one when no configured profile has a wider
    period range or a wider shift range. *)
Definition widest_profile (p : Profile) : Prop :=
  forall (name : string) (q : Profile),
    CONSTRAINTS !! name = Some q ->
    (Z_span (ema_range q) <= Z_span (ema_range p))%Z
    /\ (Q_span (shift_range q) <= Q_span (shift_range p))%Q.

(** The classification as the specification words it: a support test
    first, otherwise a breach whenever the close is below support. *)
Definition in_band (fbis_level low_price : Q) : bool :=
  negb (Qeq_bool fbis_level 0)
  && Qle_bool (- TOUCH_TOLERANCE_PCT)
              (((low_price - fbis_level) / fbis_level) * 100)
  && Qle_bool (((low_price - fbis_level) / fbis_level) * 100)
              TOUCH_TOLERANCE_PCT.

Definition classify_bar_spec (fbis_level low_price close_price : Q)
  : BarClass :=
  if in_band fbis_level low_price && Qle_bool fbis_level close_price
  then SupportTest
  else if Qltb close_price fbis_level then Breach
  else Unclassified.

(** The candidates of a profile in the order of the nested loops. *)
Definition candidates (p : Profile) : list (Z * Q) :=
  flat_map (fun period => map (pair period) (shift_range p)) (ema_range p).

(** The score of a candidate and the dict the grid search records for
    it. *)
Definition cand_score (self : ConstrainedFbisOptimizer)
    (opt_low opt_close : list Q) (c : Z * Q) : Q :=
  let '(support_tests, breaches) :=
    evaluate self opt_low opt_close c.1 c.2 in
  score_of support_tests breaches.

Definition cand_result (self : ConstrainedFbisOptimizer)
    (opt_low opt_close : list Q) (c : Z * Q) : OptResult :=
  let '(support_tests, breaches) :=
    evaluate self opt_low opt_close c.1 c.2 in
  {| res_period := c.1; res_shift := c.2;
     res_tests := support_tests; res_breaches := breaches;
     res_score := score_of support_tests breaches;
     res_trend_start := trend_start self;
     res_asset_class := Some (asset_class self) |}.


(** The number of selected positions of a mask prefix. *)
Definition count_true (mask : list bool) : nat :=
  length (List.filter (fun b : bool => b) mask).

(** Weekly series: bar i is dated 7*i. *)
Definition weekly (vals : list Q) : Series :=
  zip (map (fun i => (7 * Z.of_nat i)%Z) (seq 0 (length vals))) vals.

(** Twelve weeks: a low first close, a plateau, and a last bar whose low
    dips to 96.5 and which closes at 97. *)
Definition ex_close : list Q :=
  [96; 100; 100; 100; 100; 100; 100; 100; 100; 100; 100; 97]%Q.
Definition ex_low : list Q :=
  [96; 100; 100; 100; 100; 100; 100; 100; 100; 100; 100; 96.5]%Q.
Definition ex_high : list Q := ex_close.

Definition ex_optimizer (ticker : string) : ConstrainedFbisOptimizer :=
  {| ticker := ticker;
     close := weekly ex_close; high := weekly ex_high;
     low := weekly ex_low;
     asset_class := resolve_asset_class ticker;
     constraints := resolve_constraints (resolve_asset_class ticker);
     trend_start := 0;
     detection_info := no_info |}.

(** Twelve weeks with the lowest close in the third week and a steady
    rise after it. *)
Definition ex_dip_close : list Q :=
  [100; 98; 96; 98; 100; 101; 102; 103; 104; 105; 106; 107]%Q.
Definition ex_dip_low : list Q :=
  [99; 97; 95; 97; 99; 100; 101; 102; 103; 104; 105; 106]%Q.

Definition ex_dip_optimizer : ConstrainedFbisOptimizer :=
  {| ticker := "SPY";
     close := weekly ex_dip_close; high := weekly ex_dip_close;
     low := weekly ex_dip_low;
     asset_class := "large_cap";
     constraints := large_cap;
     trend_start := 14;
     detection_info := no_info |}.


(** The weekly loop with the classification of the specification. *)
Fixpoint count_bars_spec (fbis_line opt_low opt_close : list Q)
    (support_tests breaches : nat) : nat * nat :=
  match fbis_line, opt_low, opt_close with
  | fbis_level :: ftl, low_price :: ltl, close_price :: ctl =>
      match classify_bar_spec fbis_level low_price close_price with
      | SupportTest => count_bars_spec ftl ltl ctl (S support_tests) breaches
      | Breach => count_bars_spec ftl ltl ctl support_tests (S breaches)
      | Unclassified => count_bars_spec ftl ltl ctl support_tests breaches
      end
  | _, _, _ => (support_tests, breaches)
  end.



End Spec.

(** ** Notions used to state the further properties *)

Module Props.
Import Pandas Fbis.


(** The values of the slice [i-window : i+window+1]. *)
Definition window_values (s : Series) (i window : nat) : list Q :=
  take (2 * window + 1) (drop (i - window) s.*2).

(** Each price is strictly below the one before it. *)
Definition falling_prices (l : list SwingPoint) : Prop :=
  forall i a b, l !! i = Some a -> l !! S i = Some b ->
                (sw_price b < sw_price a)%Q.

(** [r] is a run of consecutive elements of [l]. *)
Definition consecutive_in {A : Type} (r l : list A) : Prop :=
  exists pre post, l = pre ++ r ++ post.

(** The run of lower highs that starts at swing high [start_idx]. *)
Definition run_from (swing_highs : list SwingPoint) (start_idx : nat)
  : list SwingPoint :=
  match drop start_idx swing_highs with
  | h :: tl => h :: lower_run h tl
  | [] => []
  end.

(** The sum of the weights of the results, looked up by ticker. *)
Definition total_weight (allocations : gmap string R)
    (etf_results : list Core.EtfRisk) : R :=
  Core.Rsum
    (map (fun r => default 0%R (allocations !! Core.risk_ticker r))
         etf_results).

(** The allocations whose ticker has a close column in the table. *)
Definition present_allocations (df : Core.Frame)
    (allocations : list (string * R)) : list (string * R) :=
  List.filter
    (fun item : string * R =>
       match Core.fr_columns df !! (item.1 +:+ "_close")%string with
       | Some _ => true
       | None => false
       end)
    allocations.

(** The five risk levels: CSS class, label, dashboard colour and
    spreadsheet colour. *)
Definition risk_levels : list (string * string * string * string) :=
  [ ("risk-critical", "CRITICAL", "#c0392b", "C0392B");
    ("risk-high", "HIGH", "#e74c3c", "E74C3C");
    ("risk-moderate", "MODERATE", "#f39c12", "F39C12");
    ("risk-low", "LOW", "#27ae60", "27AE60");
    ("risk-minimal", "MINIMAL", "#16a085", "16A085") ]%string.

(** Both scores of a result lie in [0, 100]. *)
Definition scores_in_range (r : Core.EtfRisk) : Prop :=
  (0 <= Core.satid_score_1week r <= 100)%R
  /\ (0 <= Core.satid_score_1month r <= 100)%R.

(** The rows of one asset class. *)
Definition class_rows (ac : string) (rows : list Core.RiskRow)
  : list Core.RiskRow :=
  List.filter (fun row => bool_decide (Core.row_asset_class row = ac)) rows.

(** The summary agrees with the rows: a class has an entry exactly when it
    has rows, and the entry counts them and adds up their allocations. *)
Definition summary_consistent (rows : list Core.RiskRow)
    (summary : gmap string Core.ClassSummary) : Prop :=
  forall ac,
    match summary !! ac with
    | Some s =>
        Core.sum_count s = length (class_rows ac rows)
        /\ (1 <= Core.sum_count s)%nat
        /\ Core.sum_weight s
           = Core.Rsum (map Core.row_allocation (class_rows ac rows))
    | None => class_rows ac rows = []
    end.

(** Three weeks of two instruments, for the risk layer. *)
Definition ex_two_frame : Core.Frame :=
  {| Core.fr_dates := [0; 7; 14]%Z;
     Core.fr_columns :=
       list_to_map [ ("SPY_close"%string, [100; 102; 101]%R);
                     ("QQQ_close"%string, [50; 49; 52]%R) ] |}.

End Props.

(** ** Properties *)

Import Pandas Fbis Spec Props.

(** *** Rational comparisons *)

Lemma Qltb_lt (x y : Q) : Qltb x y = true <-> (x < y)%Q.
Proof.
  unfold Qltb. rewrite negb_true_iff.
  split; intros H.
  - apply Qnot_le_lt. intros Hle. apply Qle_bool_iff in Hle. congruence.
  - destruct (Qle_bool y x) eqn:E; [|reflexivity].
    apply Qle_bool_iff in E. apply Qle_not_lt in E. contradiction.
Qed.

Lemma Qltb_ge (x y : Q) : Qltb x y = false <-> (y <= x)%Q.
Proof.
  unfold Qltb. rewrite negb_false_iff. apply Qle_bool_iff.
Qed.

Lemma inject_nat_lt (a b : nat) :
  (a < b)%nat -> (inject_Z (Z.of_nat a) < inject_Z (Z.of_nat b))%Q.
Proof. intros H. rewrite <- Zlt_Qlt. lia. Qed.

(** *** Risk scoring *)

(** C5: the linear SATID score always lies in [0, 100], and it is exactly
    100 whenever the distance to support is zero or negative, whatever the
    volatility and the horizon. *)
Theorem C5_score_clamped (distance_pct volatility_weekly horizon_weeks : R) :
  (0 <= Core.calculate_satid_score_linear
          distance_pct volatility_weekly horizon_weeks <= 100)%R
  /\ ((distance_pct <= 0)%R ->
      Core.calculate_satid_score_linear
        distance_pct volatility_weekly horizon_weeks = 100%R).
Proof.
  unfold Core.calculate_satid_score_linear.
  destruct (Rle_dec distance_pct 0) as [Hle | Hgt].
  - split; [lra | reflexivity].
  - split; [| intros H; contradiction].
    set (score := (100 - _ * 25)%R).
    unfold Rmax, Rmin.
    destruct (Rle_dec 100 score); destruct (Rle_dec 0 _); lra.
Qed.

Lemma C5_score_clamped_witness :
  Core.calculate_satid_score_linear (-0.01) 0.02 1 = 100%R.
Proof.
  apply (proj2 (C5_score_clamped (-0.01) 0.02 1)). lra.
Defined.

(** C8: above support the score is 100 - 25 * distance / (volatility *
    sqrt horizon) clamped to [0, 100]; for a distance of 0.05, a weekly
    volatility of 0.02 and a one-week horizon the z-score is 2.5 and the
    score is 37.5. *)
Theorem C8_score_formula :
  (forall distance_pct volatility_weekly horizon_weeks : R,
      (0 < distance_pct)%R ->
      Core.calculate_satid_score_linear
        distance_pct volatility_weekly horizon_weeks
      = Rmax 0 (Rmin 100
                  (100 - 25 * (distance_pct
                               / (volatility_weekly * sqrt horizon_weeks))))%R)
  /\ Core.z_score_of 0.05 0.02 1 = 2.5%R
  /\ Core.calculate_satid_score_linear 0.05 0.02 1 = 37.5%R.
Proof.
  assert (Hz : Core.z_score_of 0.05 0.02 1 = 2.5%R).
  { unfold Core.z_score_of. rewrite sqrt_1. lra. }
  split; [| split; [exact Hz |]].
  - intros d v h Hd. unfold Core.calculate_satid_score_linear.
    destruct (Rle_dec d 0) as [Hle | _]; [lra |].
    unfold Core.z_score_of. f_equal. f_equal. lra.
  - unfold Core.calculate_satid_score_linear.
    destruct (Rle_dec 0.05 0) as [Hle | _]; [lra |].
    rewrite Hz. unfold Rmax, Rmin.
    destruct (Rle_dec 100 _); destruct (Rle_dec 0 _); lra.
Qed.

Lemma C8_score_formula_witness :
  Core.calculate_satid_score_linear 0.1 0.05 4
  = Rmax 0 (Rmin 100 (100 - 25 * (0.1 / (0.05 * sqrt 4))))%R.
Proof.
  apply (proj1 C8_score_formula 0.1 0.05 4)%R. lra.
Defined.

(** *** The evaluation score *)

(** C9: the score is tests * 1.0 - breaches * 3.0, so for a fixed number of
    support tests every additional breach strictly lowers it. *)
Theorem C9_score_decreases_with_breaches (t b1 b2 : nat) :
  (b1 < b2)%nat ->
  (score_of t b2 < score_of t b1)%Q
  /\ (score_of t b1 == inject_Z (Z.of_nat t) * 1.0
                       - inject_Z (Z.of_nat b1) * 3.0)%Q.
Proof.
  intros H. apply inject_nat_lt in H.
  unfold score_of, SUPPORT_TEST_REWARD, BREACH_PENALTY.
  split; [| reflexivity].
  assert (H3 : (0 < 3.0)%Q) by reflexivity.
  nra.
Qed.

Lemma C9_score_decreases_with_breaches_witness :
  (score_of 8 2 < score_of 8 1)%Q
  /\ (score_of 8 1 == inject_Z (Z.of_nat 8) * 1.0
                      - inject_Z (Z.of_nat 1) * 3.0)%Q.
Proof.
  apply (C9_score_decreases_with_breaches 8 1 2). lia.
Defined.

(** *** Asset-class resolution *)

Lemma sector_is_configured :
  CONSTRAINTS !! "sector"%string
  = Some {| ema_range := py_range 18 27 2;
            shift_range := np_arange (-0.08) (-0.015) 0.005 |}.
Proof. reflexivity. Qed.

Lemma large_cap_not_widest : ~ widest_profile large_cap.
Proof.
  intros H. destruct (H _ _ sector_is_configured) as [Hperiods _].
  apply Z.leb_le in Hperiods. vm_compute in Hperiods. discriminate.
Qed.

Lemma resolve_unmapped (ticker : string) :
  ASSET_CLASSES !! ticker = None ->
  resolve_asset_class ticker = "large_cap"%string
  /\ resolve_constraints (resolve_asset_class ticker) = large_cap.
Proof.
  intros H. unfold resolve_asset_class. rewrite H. simpl.
  split; reflexivity.
Qed.

Lemma init_fields ticker close_series high_series low_series o :
  init ticker close_series high_series low_series = Ok o ->
  Fbis.ticker o = ticker /\ close o = close_series /\ low o = low_series
  /\ asset_class o = resolve_asset_class ticker
  /\ constraints o = resolve_constraints (resolve_asset_class ticker).
Proof.
  unfold init.
  destruct (detect_trend_change close_series high_series low_series)
    as [[ts info] | e]; simpl; [| discriminate].
  intros [= <-]. simpl. repeat split.
Qed.

Lemma ex_init (ticker : string) :
  init ticker (weekly ex_close) (weekly ex_high) (weekly ex_low)
  = Ok (ex_optimizer ticker).
Proof.
  unfold init.
  replace (detect_trend_change (weekly ex_close) (weekly ex_high)
                               (weekly ex_low))
    with (Ok (0%Z, no_info)) by (vm_compute; reflexivity).
  reflexivity.
Qed.

(** C6 (as stated, refuted): the ticker "ZZZ" is not in the asset-class
    mapping, and the profile the optimiser resolves for it is not the
    widest configured one. *)
Lemma C6_unmapped_profile_not_widest :
  exists o,
    init "ZZZ" (weekly ex_close) (weekly ex_high) (weekly ex_low) = Ok o
    /\ ASSET_CLASSES !! "ZZZ"%string = None
    /\ ~ widest_profile (constraints o).
Proof.
  exists (ex_optimizer "ZZZ"). split; [apply ex_init |].
  split; [reflexivity |]. exact large_cap_not_widest.
Qed.

(** C6 (amended): an instrument that is not in the asset-class mapping gets
    the large_cap profile, whose periods are 18, 20, 22, 24 and whose
    shifts run from -0.06 to -0.02 in steps of 0.005. *)
Theorem C6_unmapped_resolves_large_cap (ticker : string) :
  ASSET_CLASSES !! ticker = None ->
  (forall close_series high_series low_series o,
      init ticker close_series high_series low_series = Ok o ->
      asset_class o = "large_cap"%string /\ constraints o = large_cap)
  /\ ema_range large_cap = [18; 20; 22; 24]%Z
  /\ Forall2 Qeq (shift_range large_cap)
       [-0.06; -0.055; -0.05; -0.045; -0.04; -0.035; -0.03; -0.025; -0.02]%Q.
Proof.
  intros H. destruct (resolve_unmapped ticker H) as [Hc Hp].
  split; [| split].
  - intros c h l o Ho. apply init_fields in Ho.
    destruct Ho as (_ & _ & _ & Hac & Hcs). rewrite Hac, Hcs. auto.
  - reflexivity.
  - vm_compute. repeat constructor.
Qed.

Lemma C6_unmapped_resolves_large_cap_witness :
  (forall close_series high_series low_series o,
      init "ZZZ" close_series high_series low_series = Ok o ->
      asset_class o = "large_cap"%string /\ constraints o = large_cap)
  /\ ema_range large_cap = [18; 20; 22; 24]%Z
  /\ Forall2 Qeq (shift_range large_cap)
       [-0.06; -0.055; -0.05; -0.045; -0.04; -0.035; -0.03; -0.025; -0.02]%Q.
Proof.
  apply (C6_unmapped_resolves_large_cap "ZZZ"). reflexivity.
Defined.

(** *** Insufficient data *)

Lemma opt_mask_length (self : ConstrainedFbisOptimizer) :
  length (opt_mask self) = length (close self).
Proof. unfold opt_mask. apply length_map. Qed.

Lemma bool_index_aligned {A : Type} (mask : list bool) (l : list A) :
  length mask = length l -> bool_index mask l = Ok (select mask l).
Proof.
  intros H. unfold bool_index. rewrite H, Nat.eqb_refl. reflexivity.
Qed.

Lemma opt_low_aligned (self : ConstrainedFbisOptimizer) :
  length (low self) = length (close self) ->
  bool_index (opt_mask self) (low self).*2
  = Ok (select (opt_mask self) (low self).*2).
Proof.
  intros H. apply bool_index_aligned.
  rewrite opt_mask_length, length_fmap. congruence.
Qed.

(** The mask comes from the close index, so a low series of another length
    (different NaN rows) makes the boolean indexing raise before the
    window is measured. *)
Lemma optimize_misaligned_raises (self : ConstrainedFbisOptimizer) :
  length (low self) <> length (close self) ->
  optimize self = Raise IndexError.
Proof.
  intros Hne. unfold optimize, bool_index.
  rewrite opt_mask_length, length_fmap.
  destruct (Nat.eqb_spec (length (close self)) (length (low self)))
    as [Heq | _]; [congruence | reflexivity].
Qed.



(** *** Trend-start fallback *)

Lemma argmin_from_spec (rest : Series) :
  forall best : Z * Q,
  exists i : nat,
    (best :: rest) !! i = Some (argmin_from best rest)
    /\ (forall x, x ∈ best :: rest -> ((argmin_from best rest).2 <= x.2)%Q)
    /\ (forall j y, (j < i)%nat -> (best :: rest) !! j = Some y ->
                    ((argmin_from best rest).2 < y.2)%Q).
Proof.
  induction rest as [| b tl IH]; intros best.
  - exists 0%nat. simpl. split; [reflexivity |]. split.
    + intros x Hx. apply list_elem_of_singleton in Hx. subst. apply Qle_refl.
    + intros j y Hj. lia.
  - simpl. destruct (Qltb b.2 best.2) eqn:E.
    + apply Qltb_lt in E.
      destruct (IH b) as (i & Hi & Hmin & Hfirst).
      exists (S i). split; [exact Hi |]. split.
      * intros x Hx. apply elem_of_cons in Hx as [-> | Hx]; [| auto].
        apply Qlt_le_weak. eapply Qle_lt_trans; [| exact E].
        apply Hmin. left.
      * intros [| j] y Hj Hy.
        -- simpl in Hy. injection Hy as <-.
           eapply Qle_lt_trans; [| exact E]. apply Hmin. left.
        -- apply (Hfirst j y); [lia | exact Hy].
    + apply Qltb_ge in E.
      destruct (IH best) as (i & Hi & Hmin & Hfirst).
      destruct i as [| i].
      * exists 0%nat. split; [exact Hi |]. split.
        -- intros x Hx. apply elem_of_cons in Hx as [-> | Hx].
           ++ apply Hmin. left.
           ++ apply elem_of_cons in Hx as [-> | Hx].
              ** eapply Qle_trans; [| exact E]. apply Hmin. left.
              ** apply Hmin. right. exact Hx.
        -- intros j y Hj. lia.
      * exists (S (S i)). split; [exact Hi |].
        assert (Hb : ((argmin_from best tl).2 < best.2)%Q).
        { apply (Hfirst 0%nat best); [lia | reflexivity]. }
        split.
        -- intros x Hx. apply elem_of_cons in Hx as [-> | Hx].
           ++ apply Hmin. left.
           ++ apply elem_of_cons in Hx as [-> | Hx].
              ** apply Qlt_le_weak. eapply Qlt_le_trans; eauto.
              ** apply Hmin. right. exact Hx.
        -- intros [| [| j]] y Hj Hy; simpl in Hy.
           ++ injection Hy as <-. exact Hb.
           ++ injection Hy as <-. eapply Qlt_le_trans; eauto.
           ++ apply (Hfirst (S j) y); [lia | exact Hy].
Qed.

(** C4: when the swing detector with window 4 finds fewer than two swing
    highs, [detect_trend_change] returns the date of the global minimum
    close (the first bar that attains it) and no detection metadata. *)
Theorem C4_fallback_to_global_minimum
    (close_series high_series low_series : Series) :
  close_series <> [] ->
  (length (find_swing_highs high_series 4) < 2)%nat ->
  exists (i : nat) (d : Z) (v : Q),
    detect_trend_change close_series high_series low_series
    = Ok (d, {| info_breakout := None; info_confirmation := None |})
    /\ idxmin close_series = Ok d
    /\ close_series !! i = Some (d, v)
    /\ (forall x, x ∈ close_series -> (v <= x.2)%Q)
    /\ (forall j y, (j < i)%nat -> close_series !! j = Some y -> (v < y.2)%Q).
Proof.
  intros Hne Hfew. unfold detect_trend_change.
  apply Nat.ltb_lt in Hfew. rewrite Hfew.
  destruct close_series as [| b tl]; [contradiction |].
  destruct (argmin_from_spec tl b) as (i & Hi & Hmin & Hfirst).
  destruct (argmin_from b tl) as [d v] eqn:E.
  exists i, d, v. simpl. rewrite E. simpl.
  repeat split; auto.
Qed.

Lemma C4_fallback_to_global_minimum_witness :
  exists (i : nat) (d : Z) (v : Q),
    detect_trend_change (weekly [12; 11; 9; 10; 9]%Q)
                        (weekly [13; 12; 10; 11; 10]%Q)
                        (weekly [11; 10; 8; 9; 8]%Q)
    = Ok (d, {| info_breakout := None; info_confirmation := None |})
    /\ idxmin (weekly [12; 11; 9; 10; 9]%Q) = Ok d
    /\ weekly [12; 11; 9; 10; 9]%Q !! i = Some (d, v)
    /\ (forall x, x ∈ weekly [12; 11; 9; 10; 9]%Q -> (v <= x.2)%Q)
    /\ (forall j y, (j < i)%nat ->
                    weekly [12; 11; 9; 10; 9]%Q !! j = Some y -> (v < y.2)%Q).
Proof.
  apply C4_fallback_to_global_minimum; [discriminate | simpl; lia].
Defined.

(** *** Defaults of the risk-scoring layer *)

Section RiskDefaults.
Variable fbis_params : gmap string Core.ParamEntry.
Variable ticker : string.
Hypothesis absent : fbis_params !! ticker = None.








End RiskDefaults.



(** *** Bar classification *)

Lemma classify_bar_vs_spec (fbis_level low_price close_price : Q) :
  classify_bar fbis_level low_price close_price
  = classify_bar_spec fbis_level low_price close_price
  \/ (in_band fbis_level low_price = true
      /\ (close_price < fbis_level)%Q
      /\ classify_bar fbis_level low_price close_price = Unclassified
      /\ classify_bar_spec fbis_level low_price close_price = Breach).
Proof.
  unfold classify_bar, classify_bar_spec. fold (in_band fbis_level low_price).
  destruct (in_band fbis_level low_price); simpl; [| left; reflexivity].
  destruct (Qltb close_price fbis_level) eqn:E.
  - right. pose proof E as Hlt. apply Qltb_lt in Hlt.
    unfold Qltb in E. apply negb_true_iff in E. rewrite E. auto.
  - left. unfold Qltb in E. apply negb_false_iff in E. rewrite E.
    reflexivity.
Qed.

Lemma ex_bond_init :
  init "BIL" (weekly ex_close) (weekly ex_high) (weekly ex_low)
  = Ok (ex_optimizer "BIL").
Proof. apply ex_init. Qed.

(** C1 (the code at the failing input): for the instrument BIL on the
    twelve-week example the candidate (16, 0) puts the support level of the
    last bar above its close of 97 while its low of 96.5 is inside the
    tolerance band.  The weekly loop leaves that bar unclassified and
    reports 8 tests and no breach, where the priority order of the
    specification counts one breach; the optimiser returns that candidate
    with score 8. *)
Theorem C1_band_low_close_below_not_counted :
  let o := ex_optimizer "BIL" in
  init "BIL" (weekly ex_close) (weekly ex_high) (weekly ex_low) = Ok o
  /\ (exists s : Q,
         fbis_line o 16 0 !! 11%nat = Some s
         /\ in_band s 96.5 = true
         /\ (97 < s)%Q
         /\ classify_bar s 96.5 97 = Unclassified
         /\ classify_bar_spec s 96.5 97 = Breach)
  /\ evaluate o ex_low ex_close 16 0 = (8%nat, 0%nat)
  /\ count_bars_spec (fbis_line o 16 0) ex_low ex_close 0 0 = (8%nat, 1%nat)
  /\ (exists r,
         optimize o = Ok r
         /\ res_period r = 16%Z /\ (res_shift r == 0)%Q
         /\ res_tests r = 8%nat /\ res_breaches r = 0%nat
         /\ (res_score r == 8)%Q).
Proof.
  intros o. split; [apply ex_bond_init |].
  split.
  - eexists. split; [vm_compute; reflexivity |].
    repeat split; vm_compute; reflexivity.
  - split; [vm_compute; reflexivity |].
    split; [vm_compute; reflexivity |].
    eexists. split; [vm_compute; reflexivity |].
    repeat split; vm_compute; reflexivity.
Qed.

(** *** The support line inside the window *)

Lemma ewm_loop_length (alpha : Q) (rest : list Q) :
  forall prev, length (ewm_loop alpha prev rest) = length rest.
Proof.
  induction rest as [| x tl IH]; intros prev; simpl; [reflexivity |].
  rewrite IH. reflexivity.
Qed.

Lemma ewm_mean_length (span : Z) (xs : list Q) :
  length (ewm_mean span xs) = length xs.
Proof.
  destruct xs as [| x tl]; simpl; [reflexivity |].
  rewrite ewm_loop_length. reflexivity.
Qed.

Lemma ewm_loop_step (alpha : Q) (rest : list Q) :
  forall (prev : Q) (j : nat) (x y : Q),
    (prev :: ewm_loop alpha prev rest) !! j = Some y ->
    rest !! j = Some x ->
    ewm_loop alpha prev rest !! j
    = Some ((1 - alpha) * y + alpha * x)%Q.
Proof.
  induction rest as [| x0 tl IH]; intros prev j x y Hy Hx; [discriminate |].
  destruct j as [| j]; simpl in *.
  - injection Hy as <-. injection Hx as <-. reflexivity.
  - apply IH; assumption.
Qed.

Lemma select_lookup {A : Type} (mask : list bool) :
  forall (l : list A) (j : nat) (x : A),
    length mask = length l ->
    mask !! j = Some true ->
    l !! j = Some x ->
    select mask l !! count_true (take j mask) = Some x.
Proof.
  unfold count_true.
  induction mask as [| m mtl IH]; intros l j x Hlen Hm Hx; [discriminate |].
  destruct l as [| a tl]; [discriminate |].
  destruct j as [| j]; simpl in *.
  - injection Hm as ->. injection Hx as ->. reflexivity.
  - destruct m; simpl; apply IH; auto.
Qed.

Lemma select_length {A B : Type} (mask : list bool) :
  forall (l : list A) (l' : list B),
    length l = length l' ->
    length (select mask l) = length (select mask l').
Proof.
  induction mask as [| m mtl IH]; intros l l' Hlen; [reflexivity |].
  destruct l, l'; simpl in *; try discriminate; [reflexivity |].
  destruct m; simpl; [f_equal |]; apply IH; lia.
Qed.

Lemma lookup_map {A B : Type} (f : A -> B) (l : list A) :
  forall i : nat, map f l !! i = f <$> l !! i.
Proof.
  induction l as [| a tl IH]; intros [| i]; simpl; auto.
Qed.

Lemma ex_dip_init :
  init "SPY" (weekly ex_dip_close) (weekly ex_dip_close) (weekly ex_dip_low)
  = Ok ex_dip_optimizer.
Proof.
  unfold init.
  replace (detect_trend_change (weekly ex_dip_close) (weekly ex_dip_close)
                               (weekly ex_dip_low))
    with (Ok (14%Z, no_info)) by (vm_compute; reflexivity).
  reflexivity.
Qed.

(** C7: for every candidate, the support line inside the evaluation window
    is (1 + shift) times the EMA of the entire close series read at the
    window's bars: the EMA starts at the first close of the series and
    follows y_t = (1 - alpha) y_(t-1) + alpha x_t over all of it, and the
    window bar that comes from bar j of the series carries the value of
    that EMA at j.  It is not the EMA restarted at the first bar of the
    window: on the dip example the two differ at the first window bar. *)
Theorem C7_support_line_from_full_series_ema
    (self : ConstrainedFbisOptimizer) (period : Z) (shift : Q) :
  let closes := (close self).*2 in
  let ema_full := _calculate_ema self period in
  let alpha := (2 / (inject_Z period + 1))%Q in
  length ema_full = length closes
  /\ ema_full !! 0%nat = closes !! 0%nat
  /\ (forall j x y,
        ema_full !! j = Some y -> closes !! S j = Some x ->
        ema_full !! S j = Some ((1 - alpha) * y + alpha * x)%Q)
  /\ length (fbis_line self period shift)
     = length (select (opt_mask self) closes)
  /\ (forall j d c,
        close self !! j = Some (d, c) -> (trend_start self <= d)%Z ->
        exists e,
          ema_full !! j = Some e
          /\ select (opt_mask self) closes
               !! count_true (take j (opt_mask self)) = Some c
          /\ fbis_line self period shift
               !! count_true (take j (opt_mask self))
             = Some (e * (1 + shift))%Q)
  /\ (exists o e e',
        init "SPY" (weekly ex_dip_close) (weekly ex_dip_close)
             (weekly ex_dip_low) = Ok o
        /\ fbis_line o 18 (-0.06) !! 0%nat = Some e
        /\ map (fun y => y * (1 + -0.06))%Q
               (ewm_mean 18 (select (opt_mask o) (close o).*2)) !! 0%nat
           = Some e'
        /\ ~ (e == e')%Q).
Proof.
  intros closes ema_full alpha.
  assert (Hlen : length ema_full = length closes).
  { apply ewm_mean_length. }
  split; [exact Hlen |].
  split.
  { unfold ema_full, _calculate_ema. fold closes.
    destruct closes; reflexivity. }
  split.
  { intros j x y Hy Hx. unfold ema_full, _calculate_ema in *.
    fold closes in Hy |- *.
    destruct closes as [| x0 tl]; [discriminate |].
    simpl in *. apply ewm_loop_step; assumption. }
  split.
  { unfold fbis_line. rewrite length_map. fold ema_full.
    apply select_length. exact Hlen. }
  split.
  { intros j d c Hj Hd.
    assert (Hc : closes !! j = Some c).
    { unfold closes. rewrite list_lookup_fmap, Hj. reflexivity. }
    assert (Hm : opt_mask self !! j = Some true).
    { unfold opt_mask. rewrite lookup_map, Hj. simpl.
      f_equal. apply Z.leb_le. exact Hd. }
    assert (Hml : length (opt_mask self) = length closes).
    { rewrite opt_mask_length. unfold closes. rewrite length_fmap.
      reflexivity. }
    destruct (lookup_lt_is_Some_2 ema_full j) as [e He].
    { rewrite Hlen. eapply lookup_lt_Some. exact Hc. }
    exists e. split; [exact He |]. split.
    - apply select_lookup; assumption.
    - unfold fbis_line. fold ema_full.
      rewrite lookup_map.
      rewrite (select_lookup _ ema_full j e); [reflexivity | | exact Hm | exact He].
      congruence. }
  exists ex_dip_optimizer. eexists. eexists.
  split; [apply ex_dip_init |].
  split; [vm_compute; reflexivity |].
  split; [vm_compute; reflexivity |].
  intros H. vm_compute in H. discriminate.
Qed.

Lemma C7_support_line_from_full_series_ema_witness :
  exists e,
    _calculate_ema ex_dip_optimizer 18 !! 2%nat = Some e
    /\ select (opt_mask ex_dip_optimizer) (close ex_dip_optimizer).*2
         !! count_true (take 2 (opt_mask ex_dip_optimizer)) = Some 96%Q
    /\ fbis_line ex_dip_optimizer 18 (-0.06)
         !! count_true (take 2 (opt_mask ex_dip_optimizer))
       = Some (e * (1 + -0.06))%Q.
Proof.
  destruct (C7_support_line_from_full_series_ema ex_dip_optimizer 18 (-0.06))
    as (_ & _ & _ & _ & Hwin & _).
  apply (Hwin 2%nat 14%Z 96%Q); [reflexivity | simpl; lia].
Defined.

(** *** The grid search *)

Lemma foldl_map {A B C : Type} (f : A -> B -> A) (g : C -> B) (l : list C) :
  forall a, foldl f a (map g l) = foldl (fun a x => f a (g x)) a l.
Proof. induction l as [| x tl IH]; intros a; simpl; auto. Qed.

Lemma foldl_pointwise {A B : Type} (f g : A -> B -> A) (l : list B) :
  (forall a x, f a x = g a x) -> forall a, foldl f a l = foldl g a l.
Proof.
  intros Hfg. induction l as [| x tl IH]; intros a; simpl; [reflexivity |].
  rewrite Hfg. apply IH.
Qed.

Lemma foldl_flat_map {A B C : Type} (f : A -> B -> A) (g : C -> list B)
    (l : list C) :
  forall a,
    foldl f a (flat_map g l) = foldl (fun a x => foldl f a (g x)) a l.
Proof.
  induction l as [| x tl IH]; intros a; simpl; [reflexivity |].
  rewrite foldl_app. apply IH.
Qed.

Section GridSearch.
Variable self : ConstrainedFbisOptimizer.
Variables opt_low opt_close : list Q.

Lemma consider_unfold (st : option OptResult * Q) (c : Z * Q) :
  consider self opt_low opt_close st c
  = if Qltb st.2 (cand_score self opt_low opt_close c)
    then (Some (cand_result self opt_low opt_close c),
          cand_score self opt_low opt_close c)
    else st.
Proof.
  unfold consider, cand_score, cand_result.
  destruct c as [period shift]. simpl.
  destruct (evaluate self opt_low opt_close period shift) as [t b].
  reflexivity.
Qed.

Lemma grid_search_flat :
  grid_search self opt_low opt_close
  = foldl (consider self opt_low opt_close) (None, (-999999)%Q)
          (candidates (constraints self)).
Proof.
  unfold grid_search, candidates. rewrite foldl_flat_map.
  apply foldl_pointwise. intros st period. rewrite foldl_map. reflexivity.
Qed.


(** The fold keeps its state when no candidate beats it; otherwise it
    ends on the first candidate of maximal score. *)
Lemma fold_consider_spec (l : list (Z * Q)) :
  forall st : option OptResult * Q,
    (foldl (consider self opt_low opt_close) st l = st
     /\ forall c, c ∈ l -> (cand_score self opt_low opt_close c <= st.2)%Q)
    \/ (exists l1 x l2,
           l = l1 ++ x :: l2
           /\ foldl (consider self opt_low opt_close) st l
              = (Some (cand_result self opt_low opt_close x),
                 cand_score self opt_low opt_close x)
           /\ (st.2 < cand_score self opt_low opt_close x)%Q
           /\ (forall y, y ∈ l1 ->
                 (cand_score self opt_low opt_close y
                  < cand_score self opt_low opt_close x)%Q)
           /\ (forall y, y ∈ l2 ->
                 (cand_score self opt_low opt_close y
                  <= cand_score self opt_low opt_close x)%Q)).
Proof.
  induction l as [| c tl IH]; intros st.
  - left. split; [reflexivity |]. intros c Hc. inversion Hc.
  - simpl. rewrite consider_unfold.
    destruct (Qltb st.2 (cand_score self opt_low opt_close c)) eqn:E.
    + apply Qltb_lt in E.
      destruct (IH (Some (cand_result self opt_low opt_close c),
                    cand_score self opt_low opt_close c))
        as [[Heq Hall] | (l1 & x & l2 & Hl & Heq & Hlt & Hbefore & Hafter)].
      * right. exists [], c, tl. simpl in *.
        repeat split; auto. intros y Hy. inversion Hy.
      * right. exists (c :: l1), x, l2. simpl in *. subst tl.
        repeat split; auto.
        -- eapply Qlt_trans; eauto.
        -- intros y Hy. apply elem_of_cons in Hy as [-> | Hy]; auto.
    + apply Qltb_ge in E.
      destruct (IH st)
        as [[Heq Hall] | (l1 & x & l2 & Hl & Heq & Hlt & Hbefore & Hafter)].
      * left. split; [exact Heq |].
        intros y Hy. apply elem_of_cons in Hy as [-> | Hy]; auto.
      * right. exists (c :: l1), x, l2. simpl. subst tl.
        repeat split; auto.
        intros y Hy. apply elem_of_cons in Hy as [-> | Hy]; auto.
        eapply Qle_lt_trans; eauto.
Qed.

End GridSearch.




Lemma count_bars_bound (fbis_line : list Q) :
  forall (opt_low opt_close : list Q) (t b : nat),
    (t <= (count_bars fbis_line opt_low opt_close t b).1)%nat
    /\ ((count_bars fbis_line opt_low opt_close t b).2
        <= b + length opt_close)%nat.
Proof.
  induction fbis_line as [| f ftl IH]; intros ol oc t b; simpl.
  - split; lia.
  - destruct ol as [| l ltl]; [simpl; lia |].
    destruct oc as [| c ctl]; [simpl; lia |].
    destruct (classify_bar f l c); simpl.
    + destruct (IH ltl ctl (S t) b). lia.
    + destruct (IH ltl ctl t (S b)). lia.
    + destruct (IH ltl ctl t b). lia.
Qed.

(** Every candidate scores above the initial best score of the search when
    the window has fewer than 333333 bars. *)
Lemma short_window_beats_sentinel (self : ConstrainedFbisOptimizer)
    (opt_low opt_close : list Q) (c : Z * Q) :
  (Z.of_nat (length opt_close) < 333333)%Z ->
  (-999999 < cand_score self opt_low opt_close c)%Q.
Proof.
  intros Hlen. unfold cand_score, evaluate.
  pose proof (count_bars_bound (fbis_line self c.1 c.2) opt_low opt_close 0 0)
    as [_ Hb].
  destruct (count_bars _ _ _ _ _) as [t b]. simpl in Hb.
  unfold score_of, SUPPORT_TEST_REWARD, BREACH_PENALTY.
  assert (Ht : (0 <= inject_Z (Z.of_nat t))%Q).
  { change 0%Q with (inject_Z 0). rewrite <- Zle_Qle. lia. }
  assert (Hb' : (inject_Z (Z.of_nat b) <= inject_Z 333332)%Q).
  { rewrite <- Zle_Qle. lia. }
  assert (H1 : (1.0 == 1)%Q) by reflexivity.
  assert (H3 : (3.0 == 3)%Q) by reflexivity.
  assert (Hk : (inject_Z 333332 == 333332)%Q) by reflexivity.
  rewrite H1, H3. rewrite Hk in Hb'. lra.
Qed.

(** When no candidate beats the initial best score, the search keeps
    nothing and [optimize] returns the fixed default. *)
Lemma all_below_sentinel_default (self : ConstrainedFbisOptimizer) :
  length (low self) = length (close self) ->
  (forall c, c ∈ candidates (constraints self) ->
     (cand_score self (select (opt_mask self) (low self).*2)
                 (select (opt_mask self) (close self).*2) c <= -999999)%Q) ->
  optimize self = Ok (default_result (trend_start self)).
Proof.
  intros Hal Hall. unfold optimize. rewrite (opt_low_aligned self Hal). simpl.
  destruct (length _ <? 10)%nat; [reflexivity |].
  rewrite grid_search_flat.
  destruct (fold_consider_spec self
              (select (opt_mask self) (low self).*2)
              (select (opt_mask self) (close self).*2)
              (candidates (constraints self)) (None, (-999999)%Q))
    as [[Heq _] | (l1 & x & l2 & Hl & _ & Hlt & _)].
  - rewrite Heq. reflexivity.
  - exfalso. simpl in Hlt.
    apply (Qlt_irrefl (-999999)). eapply Qlt_le_trans; [exact Hlt |].
    apply Hall. rewrite Hl. apply elem_of_app. right. left.
Qed.



(** *** Swing points *)

Lemma foldl_Qmax_ge (l : list Q) :
  forall a, (a <= foldl Qmax_b a l)%Q
            /\ forall x, x ∈ l -> (x <= foldl Qmax_b a l)%Q.
Proof.
  induction l as [| b tl IH]; intros a; simpl.
  - split; [apply Qle_refl |]. intros x Hx. inversion Hx.
  - destruct (IH (Qmax_b a b)) as [Hm Hall].
    assert (Hab : (a <= Qmax_b a b)%Q /\ (b <= Qmax_b a b)%Q).
    { unfold Qmax_b. destruct (Qle_bool a b) eqn:E.
      - apply Qle_bool_iff in E. split; [exact E | apply Qle_refl].
      - split; [apply Qle_refl |].
        apply Qlt_le_weak, Qltb_lt. unfold Qltb. rewrite E. reflexivity. }
    destruct Hab as [Ha Hb]. split.
    + eapply Qle_trans; eauto.
    + intros x Hx. apply elem_of_cons in Hx as [-> | Hx]; [| auto].
      eapply Qle_trans; eauto.
Qed.

Lemma foldl_Qmax_in (l : list Q) : forall a, foldl Qmax_b a l ∈ a :: l.
Proof.
  induction l as [| b tl IH]; intros a; simpl; [left |].
  specialize (IH (Qmax_b a b)). unfold Qmax_b in *.
  destruct (Qle_bool a b).
  - right. exact IH.
  - apply elem_of_cons in IH as [-> | IH]; [left | right; right; exact IH].
Qed.

Lemma foldl_Qmin_le (l : list Q) :
  forall a, (foldl Qmin_b a l <= a)%Q
            /\ forall x, x ∈ l -> (foldl Qmin_b a l <= x)%Q.
Proof.
  induction l as [| b tl IH]; intros a; simpl.
  - split; [apply Qle_refl |]. intros x Hx. inversion Hx.
  - destruct (IH (Qmin_b a b)) as [Hm Hall].
    assert (Hab : (Qmin_b a b <= a)%Q /\ (Qmin_b a b <= b)%Q).
    { unfold Qmin_b. destruct (Qle_bool b a) eqn:E.
      - apply Qle_bool_iff in E. split; [exact E | apply Qle_refl].
      - split; [apply Qle_refl |].
        apply Qlt_le_weak, Qltb_lt. unfold Qltb. rewrite E. reflexivity. }
    destruct Hab as [Ha Hb]. split.
    + eapply Qle_trans; eauto.
    + intros x Hx. apply elem_of_cons in Hx as [-> | Hx]; [| auto].
      eapply Qle_trans; eauto.
Qed.

Lemma foldl_Qmin_in (l : list Q) : forall a, foldl Qmin_b a l ∈ a :: l.
Proof.
  induction l as [| b tl IH]; intros a; simpl; [left |].
  specialize (IH (Qmin_b a b)). unfold Qmin_b in *.
  destruct (Qle_bool b a).
  - right. exact IH.
  - apply elem_of_cons in IH as [-> | IH]; [left | right; right; exact IH].
Qed.

Lemma series_max_spec (vals : list Q) (m : Q) :
  series_max vals = Some m ->
  m ∈ vals /\ forall x, x ∈ vals -> (x <= m)%Q.
Proof.
  destruct vals as [| a tl]; [discriminate |]. simpl. intros [= <-].
  split; [apply foldl_Qmax_in |].
  destruct (foldl_Qmax_ge tl a) as [Ha Hall].
  intros x Hx. apply elem_of_cons in Hx as [-> | Hx]; auto.
Qed.

Lemma series_min_spec (vals : list Q) (m : Q) :
  series_min vals = Some m ->
  m ∈ vals /\ forall x, x ∈ vals -> (m <= x)%Q.
Proof.
  destruct vals as [| a tl]; [discriminate |]. simpl. intros [= <-].
  split; [apply foldl_Qmin_in |].
  destruct (foldl_Qmin_le tl a) as [Ha Hall].
  intros x Hx. apply elem_of_cons in Hx as [-> | Hx]; auto.
Qed.

Lemma window_values_lookup (s : Series) (i window k : nat) (v : Q) :
  (window <= i)%nat ->
  window_values s i window !! k = Some v
  <-> ((k <= 2 * window)%nat /\ s.*2 !! (i - window + k)%nat = Some v).
Proof.
  intros Hi. unfold window_values.
  rewrite lookup_take_Some, lookup_drop. split; intros [H1 H2]; split;
    auto; lia.
Qed.

Lemma find_swings_elem (extremum : list Q -> option Q) (s : Series)
    (window : nat) (p : SwingPoint) :
  p ∈ find_swings extremum s window
  <-> exists i m,
        (window <= i)%nat /\ (i + window < length s)%nat
        /\ s !! i = Some (sw_date p, sw_price p)
        /\ extremum (window_values s i window) = Some m
        /\ Qeq_bool (sw_price p) m = true.
Proof.
  unfold find_swings. rewrite list_elem_of_omap. split.
  - intros (i & Hi & Hf). apply elem_of_seq in Hi.
    destruct (s !! i) as [[d v] |] eqn:Hs; [| discriminate].
    fold (window_values s i window) in Hf.
    destruct (extremum (window_values s i window)) as [m |] eqn:He;
      [| discriminate].
    destruct (Qeq_bool v m) eqn:Hq; [| discriminate].
    injection Hf as <-. simpl. exists i, m.
    repeat split; auto; lia.
  - intros (i & m & Hw & Hlen & Hs & He & Hq). exists i. split.
    + apply elem_of_seq. lia.
    + rewrite Hs. fold (window_values s i window). rewrite He, Hq.
      destruct p. reflexivity.
Qed.

(** X1: a bar is reported as a swing high exactly when it has [window]
    bars on each side and no value of the slice around it exceeds its
    own. *)
Theorem find_swing_highs_spec (high_series : Series) (window : nat)
    (p : SwingPoint) :
  p ∈ find_swing_highs high_series window
  <-> exists i,
        (window <= i)%nat /\ (i + window < length high_series)%nat
        /\ high_series !! i = Some (sw_date p, sw_price p)
        /\ forall j v, (i - window <= j <= i + window)%nat ->
                       high_series.*2 !! j = Some v ->
                       (v <= sw_price p)%Q.
Proof.
  unfold find_swing_highs. rewrite find_swings_elem. split.
  - intros (i & m & Hw & Hlen & Hs & He & Hq).
    exists i. repeat split; auto.
    intros j v Hj Hv. apply Qeq_bool_iff in Hq. rewrite Hq.
    apply series_max_spec in He as [_ Hall]. apply Hall.
    apply list_elem_of_lookup. exists (j - (i - window))%nat.
    apply window_values_lookup; [exact Hw |].
    split; [lia |]. replace (i - window + (j - (i - window)))%nat with j by lia.
    exact Hv.
  - intros (i & Hw & Hlen & Hs & Hall).
    assert (Hp : window_values high_series i window !! window
                 = Some (sw_price p)).
    { apply window_values_lookup; [exact Hw |]. split; [lia |].
      replace (i - window + window)%nat with i by lia.
      rewrite list_lookup_fmap, Hs. reflexivity. }
    destruct (series_max (window_values high_series i window)) as [m |] eqn:He.
    + exists i, m. repeat split; auto.
      apply Qeq_bool_iff, Qle_antisym.
      * apply series_max_spec in He as [_ Hmax]. apply Hmax.
        apply list_elem_of_lookup. eauto.
      * apply series_max_spec in He as [Hin _].
        apply list_elem_of_lookup in Hin as [k Hk].
        apply window_values_lookup in Hk as [Hk1 Hk2]; [| exact Hw].
        apply (Hall (i - window + k)%nat m); [lia | exact Hk2].
    + destruct (window_values high_series i window); discriminate.
Qed.

(** X2: a bar is reported as a swing low exactly when it has [window]
    bars on each side and no value of the slice around it is below its
    own. *)
Theorem find_swing_lows_spec (low_series : Series) (window : nat)
    (p : SwingPoint) :
  p ∈ find_swing_lows low_series window
  <-> exists i,
        (window <= i)%nat /\ (i + window < length low_series)%nat
        /\ low_series !! i = Some (sw_date p, sw_price p)
        /\ forall j v, (i - window <= j <= i + window)%nat ->
                       low_series.*2 !! j = Some v ->
                       (sw_price p <= v)%Q.
Proof.
  unfold find_swing_lows. rewrite find_swings_elem. split.
  - intros (i & m & Hw & Hlen & Hs & He & Hq).
    exists i. repeat split; auto.
    intros j v Hj Hv. apply Qeq_bool_iff in Hq. rewrite Hq.
    apply series_min_spec in He as [_ Hall]. apply Hall.
    apply list_elem_of_lookup. exists (j - (i - window))%nat.
    apply window_values_lookup; [exact Hw |].
    split; [lia |]. replace (i - window + (j - (i - window)))%nat with j by lia.
    exact Hv.
  - intros (i & Hw & Hlen & Hs & Hall).
    assert (Hp : window_values low_series i window !! window
                 = Some (sw_price p)).
    { apply window_values_lookup; [exact Hw |]. split; [lia |].
      replace (i - window + window)%nat with i by lia.
      rewrite list_lookup_fmap, Hs. reflexivity. }
    destruct (series_min (window_values low_series i window)) as [m |] eqn:He.
    + exists i, m. repeat split; auto.
      apply Qeq_bool_iff, Qle_antisym.
      * apply series_min_spec in He as [Hin _].
        apply list_elem_of_lookup in Hin as [k Hk].
        apply window_values_lookup in Hk as [Hk1 Hk2]; [| exact Hw].
        apply (Hall (i - window + k)%nat m); [lia | exact Hk2].
      * apply series_min_spec in He as [_ Hmin]. apply Hmin.
        apply list_elem_of_lookup. eauto.
    + destruct (window_values low_series i window); discriminate.
Qed.







(** *** Lower highs *)

Lemma lower_run_prefix (rest : list SwingPoint) :
  forall last, exists post, rest = lower_run last rest ++ post.
Proof.
  induction rest as [| h tl IH]; intros last; simpl; [exists []; reflexivity |].
  destruct (Qltb (sw_price h) (sw_price last)).
  - destruct (IH h) as [post Hpost]. exists post. simpl. congruence.
  - exists (h :: tl). reflexivity.
Qed.

Lemma falling_prices_cons (a b : SwingPoint) (l : list SwingPoint) :
  (sw_price b < sw_price a)%Q ->
  falling_prices (b :: l) -> falling_prices (a :: b :: l).
Proof.
  intros Hlt Hl [| i] x y Hx Hy; simpl in *.
  - injection Hx as <-. injection Hy as <-. exact Hlt.
  - apply (Hl i); assumption.
Qed.

Lemma lower_run_falling (rest : list SwingPoint) :
  forall last, falling_prices (last :: lower_run last rest).
Proof.
  induction rest as [| h tl IH]; intros last; simpl.
  - intros [| i] x y Hx Hy; discriminate.
  - destruct (Qltb (sw_price h) (sw_price last)) eqn:E.
    + apply falling_prices_cons; [apply Qltb_lt; exact E | apply IH].
    + intros [| i] x y Hx Hy; discriminate.
Qed.

Lemma max_by_len_spec {A : Type} (rest : list (list A)) :
  forall best,
    max_by_len best rest ∈ best :: rest
    /\ forall x, x ∈ best :: rest ->
                 (length x <= length (max_by_len best rest))%nat.
Proof.
  induction rest as [| s tl IH]; intros best; simpl.
  - split; [left |]. intros x Hx. apply list_elem_of_singleton in Hx.
    subst. lia.
  - destruct (length best <? length s)%nat eqn:E.
    + apply Nat.ltb_lt in E. destruct (IH s) as [Hin Hmax]. split.
      * right. exact Hin.
      * intros x Hx. apply elem_of_cons in Hx as [-> | Hx]; [| auto].
        specialize (Hmax s). assert (s ∈ s :: tl) by left. apply Hmax in H.
        lia.
    + apply Nat.ltb_ge in E. destruct (IH best) as [Hin Hmax]. split.
      * apply elem_of_cons in Hin as [-> | Hin];
          [left | right; right; exact Hin].
      * intros x Hx. apply elem_of_cons in Hx as [-> | Hx].
        -- apply Hmax. left.
        -- apply elem_of_cons in Hx as [-> | Hx].
           ++ assert (Hb : best ∈ best :: tl) by left. apply Hmax in Hb. lia.
           ++ apply Hmax. right. exact Hx.
Qed.

Lemma run_from_spec (swing_highs : list SwingPoint) (start_idx : nat) :
  run_from swing_highs start_idx = []
  \/ (consecutive_in (run_from swing_highs start_idx) swing_highs
      /\ falling_prices (run_from swing_highs start_idx)).
Proof.
  unfold run_from.
  destruct (drop start_idx swing_highs) as [| h tl] eqn:E; [left; reflexivity |].
  right. split; [| apply lower_run_falling].
  destruct (lower_run_prefix tl h) as [post Hpost].
  exists (take start_idx swing_highs), post.
  rewrite <- (take_drop start_idx swing_highs) at 1. rewrite E.
  simpl. congruence.
Qed.

Lemma run_from_length (swing_highs : list SwingPoint) (start_idx : nat) :
  (length (run_from swing_highs start_idx) <= length swing_highs)%nat.
Proof.
  destruct (run_from_spec swing_highs start_idx)
    as [-> | [(pre & post & Hc) _]]; [simpl; lia |].
  rewrite Hc at 2. rewrite !length_app. lia.
Qed.

(** The result is one of the runs [run_from swing_highs i] of at least
    [min_highs] points, and no such run is longer. *)
Lemma identify_lower_highs_choice (swing_highs : list SwingPoint)
    (min_highs : nat) :
  (identify_lower_highs swing_highs min_highs = []
   \/ exists i,
        identify_lower_highs swing_highs min_highs = run_from swing_highs i
        /\ (min_highs
            <= length (identify_lower_highs swing_highs min_highs))%nat)
  /\ (forall start_idx,
        (start_idx + 1 < length swing_highs)%nat ->
        (min_highs <= length (run_from swing_highs start_idx))%nat ->
        (length (run_from swing_highs start_idx)
         <= length (identify_lower_highs swing_highs min_highs))%nat).
Proof.
  unfold identify_lower_highs.
  destruct (length swing_highs <? min_highs)%nat eqn:Hshort.
  { split; [left; reflexivity |].
    intros i Hi Hmin. apply Nat.ltb_lt in Hshort.
    pose proof (run_from_length swing_highs i). lia. }
  set (f := fun start_idx : nat =>
              match drop start_idx swing_highs with
              | [] => None
              | h :: tl =>
                  if (min_highs <=? length (h :: lower_run h tl))%nat
                  then Some (h :: lower_run h tl) else None
              end).
  assert (Hf : forall i s, f i = Some s ->
                 s = run_from swing_highs i /\ (min_highs <= length s)%nat).
  { intros i s. unfold f, run_from.
    destruct (drop i swing_highs) as [| h tl]; [discriminate |].
    destruct (min_highs <=? length (h :: lower_run h tl))%nat eqn:E;
      [| discriminate].
    intros [= <-]. apply Nat.leb_le in E. auto. }
  assert (Hcomplete : forall i,
            (i + 1 < length swing_highs)%nat ->
            (min_highs <= length (run_from swing_highs i))%nat ->
            run_from swing_highs i
            ∈ omap f (seq 0 (length swing_highs - 1))).
  { intros i Hi Hmin. apply list_elem_of_omap. exists i. split.
    - apply elem_of_seq. lia.
    - unfold f. unfold run_from in *.
      destruct (drop i swing_highs) as [| h tl] eqn:E.
      + apply (f_equal length) in E. rewrite length_drop in E.
        simpl in E. lia.
      + apply Nat.leb_le in Hmin. rewrite Hmin. reflexivity. }
  destruct (omap f (seq 0 (length swing_highs - 1))) as [| s tl] eqn:Hseqs.
  { split; [left; reflexivity |].
    intros i Hi Hmin. specialize (Hcomplete i Hi Hmin). inversion Hcomplete. }
  destruct (max_by_len_spec tl s) as [Hin Hmax].
  split.
  - right. rewrite <- Hseqs in Hin.
    apply list_elem_of_omap in Hin as (i & _ & Hfi).
    apply Hf in Hfi as [Heq Hmin]. exists i. auto.
  - intros i Hi Hmin. apply Hmax. apply Hcomplete; assumption.
Qed.


(** X4: [identify_lower_highs] returns either nothing or a run of
    consecutive swing highs, at least [min_highs] long, in which every
    price is strictly below the one before; and no run of lower highs that
    starts at a swing high other than the last one and reaches
    [min_highs] points is longer than the run returned. *)
Theorem identify_lower_highs_spec (swing_highs : list SwingPoint)
    (min_highs : nat) :
  let r := identify_lower_highs swing_highs min_highs in
  (r = []
   \/ ((min_highs <= length r)%nat
       /\ consecutive_in r swing_highs
       /\ falling_prices r))
  /\ (forall start_idx,
        (start_idx + 1 < length swing_highs)%nat ->
        (min_highs <= length (run_from swing_highs start_idx))%nat ->
        (length (run_from swing_highs start_idx) <= length r)%nat).
Proof.
  intros r.
  destruct (identify_lower_highs_choice swing_highs min_highs)
    as [Hchoice Hlongest].
  fold r in Hchoice, Hlongest. split; [| exact Hlongest].
  destruct Hchoice as [Hnil | (i & Hi & Hmin)]; [left; exact Hnil |].
  destruct (run_from_spec swing_highs i) as [Hempty | [Hc Hf]].
  - left. rewrite Hi. exact Hempty.
  - right. rewrite Hi in *. auto.
Qed.

(** *** Breakout and confirmation *)

Lemma find_filter_Some {A : Type} (P Q : A -> bool) (l : list A) (x : A) :
  List.find P (List.filter Q l) = Some x ->
  exists i,
    l !! i = Some x /\ Q x = true /\ P x = true
    /\ forall j y, (j < i)%nat -> l !! j = Some y -> Q y = true ->
                   P y = false.
Proof.
  induction l as [| a tl IH]; simpl; [discriminate |].
  destruct (Q a) eqn:Hq; simpl.
  - destruct (P a) eqn:Hp.
    + intros [= <-]. exists 0%nat. repeat split; auto.
      intros j y Hj. lia.
    + intros H. destruct (IH H) as (i & Hi & Hqx & Hpx & Hfirst).
      exists (S i). repeat split; auto.
      intros [| j] y Hj Hy Hqy; simpl in Hy.
      * injection Hy as <-. exact Hp.
      * apply (Hfirst j); auto. lia.
  - intros H. destruct (IH H) as (i & Hi & Hqx & Hpx & Hfirst).
    exists (S i). repeat split; auto.
    intros [| j] y Hj Hy Hqy; simpl in Hy.
    + injection Hy as <-. congruence.
    + apply (Hfirst j); auto. lia.
Qed.

Lemma find_filter_None {A : Type} (P Q : A -> bool) (l : list A) :
  List.find P (List.filter Q l) = None ->
  forall y, y ∈ l -> Q y = true -> P y = false.
Proof.
  intros H y Hy Hq.
  apply (find_none _ _ H). apply filter_In. split; [| exact Hq].
  apply list_elem_of_In. exact Hy.
Qed.

Lemma detect_breakout_bar (close_series : Series)
    (line : option DowntrendLine) (start_after_date : Z) (b : Breakout) :
  detect_breakout close_series line start_after_date = Some b ->
  (bk_date b, bk_price b) ∈ close_series.
Proof.
  unfold detect_breakout. destruct line as [ln |]; [| discriminate].
  destruct (List.find _ _) as [[date price] |] eqn:E; [| discriminate].
  intros [= <-]. simpl.
  apply find_filter_Some in E as (i & Hi & _).
  apply list_elem_of_lookup. eauto.
Qed.

(** X5: a breakout is the first bar dated after the last anchor whose
    close is strictly above the resistance line at its date; when none is
    reported, no bar after the anchor closes above the line. *)
Theorem detect_breakout_first_crossing (close_series : Series)
    (line : DowntrendLine) (start_after_date : Z) :
  match detect_breakout close_series (Some line) start_after_date with
  | Some b =>
      exists i,
        close_series !! i = Some (bk_date b, bk_price b)
        /\ (start_after_date < bk_date b)%Z
        /\ (resistance_at_date line (bk_date b) < bk_price b)%Q
        /\ forall j d v, (j < i)%nat -> close_series !! j = Some (d, v) ->
                         (start_after_date < d)%Z ->
                         (v <= resistance_at_date line d)%Q
  | None =>
      forall d v, (d, v) ∈ close_series -> (start_after_date < d)%Z ->
                  (v <= resistance_at_date line d)%Q
  end.
Proof.
  unfold detect_breakout.
  destruct (List.find _ _) as [[date price] |] eqn:E.
  - apply find_filter_Some in E as (i & Hi & Hq & Hp & Hfirst).
    simpl in *. exists i. split; [exact Hi |].
    split; [apply Z.ltb_lt; exact Hq |].
    split; [apply Qltb_lt; exact Hp |].
    intros j d v Hj Hjv Hd.
    apply Qltb_ge. apply (Hfirst j (d, v)); auto.
    apply Z.ltb_lt. exact Hd.
  - intros d v Hin Hd. apply Qltb_ge.
    apply (find_filter_None _ _ _ E (d, v)); [exact Hin |].
    apply Z.ltb_lt. exact Hd.
Qed.

Lemma idxmin_spec (s : Series) :
  s <> [] ->
  exists i d v,
    idxmin s = Ok d /\ s !! i = Some (d, v)
    /\ forall x, x ∈ s -> (v <= x.2)%Q.
Proof.
  destruct s as [| b tl]; [contradiction |]. intros _.
  destruct (argmin_from_spec tl b) as (i & Hi & Hmin & _).
  destruct (argmin_from b tl) as [d v] eqn:E.
  exists i, d, v. simpl. rewrite E. auto.
Qed.

Lemma confirm_higher_low_inv (low_series : Series) (bk : Breakout)
    (pre_breakout_low : SwingPoint) (weeks_to_wait : Z) :
  exists o,
    confirm_higher_low low_series (Some bk) pre_breakout_low weeks_to_wait
    = Ok o
    /\ forall c, o = Some c ->
         confirmed c = true
         /\ (bk_date bk < cf_date c <= bk_date bk + 7 * weeks_to_wait)%Z
         /\ exists v,
              (cf_date c, v) ∈ low_series
              /\ (sw_price pre_breakout_low < v)%Q
              /\ forall d' v',
                   (d', v') ∈ low_series ->
                   (bk_date bk < d' <= bk_date bk + 7 * weeks_to_wait)%Z ->
                   (v <= v')%Q.
Proof.
  unfold confirm_higher_low.
  set (inwin := fun b : Z * Q =>
                  (bk_date bk <? b.1)%Z
                  && (b.1 <=? bk_date bk + 7 * weeks_to_wait)%Z).
  set (window := List.filter inwin low_series).
  assert (Hwin : forall x, x ∈ window
                   <-> x ∈ low_series
                       /\ (bk_date bk < x.1 <= bk_date bk + 7 * weeks_to_wait)%Z).
  { intros x. unfold window. rewrite !list_elem_of_In, filter_In.
    unfold inwin. rewrite andb_true_iff, Z.ltb_lt, Z.leb_le. tauto. }
  destruct (series_min window.*2) as [m |] eqn:Hm;
    [| exists None; split; [reflexivity | discriminate]].
  destruct (Qltb (sw_price pre_breakout_low) m) eqn:Hlt;
    [| exists None; split; [reflexivity | discriminate]].
  assert (Hne : window <> []).
  { intros Hnil. rewrite Hnil in Hm. discriminate. }
  destruct (idxmin_spec window Hne) as (i & d & v & Hidx & Hi & Hmin).
  rewrite Hidx. simpl.
  exists (Some {| cf_date := d; confirmed := true |}).
  split; [reflexivity |]. intros c [= <-]. simpl.
  assert (Hdv : (d, v) ∈ window) by (apply list_elem_of_lookup; eauto).
  apply Hwin in Hdv as [Hin Hrange]. simpl in Hrange.
  split; [reflexivity |]. split; [exact Hrange |].
  exists v. split; [exact Hin |]. split.
  - apply Qltb_lt in Hlt. eapply Qlt_le_trans; [exact Hlt |].
    apply series_min_spec in Hm as [_ Hall]. apply Hall.
    apply list_elem_of_fmap. exists (d, v). split; [reflexivity |].
    apply list_elem_of_lookup. eauto.
  - intros d' v' Hin' Hrange'.
    apply (Hmin (d', v')). apply Hwin. auto.
Qed.

(** X6: [confirm_higher_low] never raises.  A confirmation it reports is
    flagged confirmed and dated at a low bar inside the window after the
    breakout, whose low is the smallest of the window and strictly above
    the pre-breakout swing low.  When it reports none although the window
    has bars, some bar of the window has a low at or below the
    pre-breakout swing low. *)
Theorem confirm_higher_low_spec (low_series : Series) (bk : Breakout)
    (pre_breakout_low : SwingPoint) (weeks_to_wait : Z) :
  exists o,
    confirm_higher_low low_series (Some bk) pre_breakout_low weeks_to_wait
    = Ok o
    /\ match o with
       | Some c =>
           confirmed c = true
           /\ (bk_date bk < cf_date c <= bk_date bk + 7 * weeks_to_wait)%Z
           /\ exists v,
                (cf_date c, v) ∈ low_series
                /\ (sw_price pre_breakout_low < v)%Q
                /\ forall d' v',
                     (d', v') ∈ low_series ->
                     (bk_date bk < d' <= bk_date bk + 7 * weeks_to_wait)%Z ->
                     (v <= v')%Q
       | None =>
           forall d v,
             (d, v) ∈ low_series ->
             (bk_date bk < d <= bk_date bk + 7 * weeks_to_wait)%Z ->
             exists d' v',
               (d', v') ∈ low_series
               /\ (bk_date bk < d' <= bk_date bk + 7 * weeks_to_wait)%Z
               /\ (v' <= sw_price pre_breakout_low)%Q
       end.
Proof.
  destruct (confirm_higher_low_inv low_series bk pre_breakout_low
              weeks_to_wait) as (o & Ho & Hsome).
  exists o. split; [exact Ho |].
  destruct o as [c |]; [apply Hsome; reflexivity |].
  intros d v Hin Hrange. unfold confirm_higher_low in Ho.
  set (inwin := fun b : Z * Q =>
                  (bk_date bk <? b.1)%Z
                  && (b.1 <=? bk_date bk + 7 * weeks_to_wait)%Z) in Ho.
  set (window := List.filter inwin low_series) in Ho.
  assert (Hwin : forall x, x ∈ window
                   <-> x ∈ low_series
                       /\ (bk_date bk < x.1 <= bk_date bk + 7 * weeks_to_wait)%Z).
  { intros x. unfold window. rewrite !list_elem_of_In, filter_In.
    unfold inwin. rewrite andb_true_iff, Z.ltb_lt, Z.leb_le. tauto. }
  assert (Hdv : (d, v) ∈ window) by (apply Hwin; auto).
  destruct (series_min window.*2) as [m |] eqn:Hm.
  - destruct (Qltb (sw_price pre_breakout_low) m) eqn:Hlt.
    + destruct (idxmin window); discriminate.
    + apply Qltb_ge in Hlt.
      apply series_min_spec in Hm as [Hmin _].
      apply list_elem_of_fmap in Hmin as ([d' v'] & -> & Hx).
      apply Hwin in Hx as [Hx1 Hx2]. exists d', v'. auto.
  - destruct window as [| x tl]; [inversion Hdv | discriminate].
Qed.

(** *** The resistance line *)

Lemma two_squares_zero (x : Q) :
  (- x * - x + (x * 2 - x) * (x * 2 - x) == 0)%Q -> (x == 0)%Q.
Proof.
  intros H.
  assert (Hsq : (x * x
                 == (1 # 2) * (- x * - x + (x * 2 - x) * (x * 2 - x)))%Q)
    by ring.
  rewrite H in Hsq.
  assert (Hz : (x * x == 0)%Q) by (rewrite Hsq; reflexivity).
  apply Qmult_integral in Hz. tauto.
Qed.

(** X7: with exactly two lower highs on different dates the fitted
    resistance line passes through both of them. *)
Theorem two_point_line_through_anchors (a b : SwingPoint) :
  sw_date a <> sw_date b ->
  exists line,
    create_downtrend_line [a; b] = Ok (Some line)
    /\ first_date line = sw_date a
    /\ (resistance_at_date line (sw_date a) == sw_price a)%Q
    /\ (resistance_at_date line (sw_date b) == sw_price b)%Q.
Proof.
  intros Hne. destruct a as [da pa], b as [db pb]. simpl in *.
  unfold create_downtrend_line, linregress, Qmean, Qsum. simpl.
  rewrite Z.sub_diag.
  change (inject_Z 0) with 0%Q.
  change (inject_Z (Z.of_nat 2)) with 2%Q.
  set (x := inject_Z (db - da)).
  assert (Hx : ~ (x == 0)%Q).
  { unfold x. intros H. unfold Qeq in H. simpl in H. lia. }
  match goal with
  | |- context [Qeq_bool ?s 0] => destruct (Qeq_bool s 0) eqn:E
  end.
  { exfalso. apply Qeq_bool_iff in E. apply Hx.
    assert (Hsq : (x * x == 0)%Q).
    { match type of E with
      | (?s == 0)%Q => assert (Hs : (s == x * x / 4)%Q) by field
      end.
      rewrite Hs in E.
      assert (H4 : (x * x == 4 * (x * x / 4))%Q) by field.
      rewrite H4, E. reflexivity. }
    apply Qmult_integral in Hsq. tauto. }
  simpl. eexists. split; [reflexivity |].
  split; [reflexivity |].
  unfold resistance_at_date. simpl. rewrite Z.sub_diag.
  change (inject_Z 0) with 0%Q. fold x.
  split; field; intros H; apply Hx, two_squares_zero, H.
Qed.

Lemma two_point_line_through_anchors_witness :
  exists line,
    create_downtrend_line [ {| sw_date := 0; sw_price := 110 |};
                            {| sw_date := 70; sw_price := 100 |} ]
    = Ok (Some line)
    /\ first_date line = 0%Z
    /\ (resistance_at_date line 0 == 110)%Q
    /\ (resistance_at_date line 70 == 100)%Q.
Proof.
  apply (two_point_line_through_anchors
           {| sw_date := 0; sw_price := 110 |}
           {| sw_date := 70; sw_price := 100 |}).
  simpl. lia.
Defined.

(** *** The trend start *)

Lemma fallback_inv (close_series : Series) (d : Z) (info : DetectionInfo) :
  (idxmin close_series ≫= fun d => Ok (d, no_info)) = Ok (d, info) ->
  info = no_info /\ idxmin close_series = Ok d.
Proof.
  destruct (idxmin close_series) as [d' | e]; simpl; [| discriminate].
  intros [= -> <-]. auto.
Qed.

Lemma detect_trend_change_cases (close_series high_series low_series : Series)
    (d : Z) (info : DetectionInfo) :
  detect_trend_change close_series high_series low_series = Ok (d, info) ->
  (info = no_info /\ idxmin close_series = Ok d)
  \/ (exists line b last_high,
         detect_breakout close_series (Some line) (sw_date last_high)
         = Some b
         /\ ((info = {| info_breakout := Some b; info_confirmation := None |}
              /\ d = bk_date b)
             \/ (exists pre c,
                    confirm_higher_low low_series (Some b) pre 12
                    = Ok (Some c)
                    /\ confirmed c = true
                    /\ info = {| info_breakout := Some b;
                                 info_confirmation := Some c |}
                    /\ d = cf_date c))).
Proof.
  intros H. unfold detect_trend_change in H. cbv zeta in H.
  destruct (length (find_swing_highs high_series 4) <? 2)%nat;
    [left; apply fallback_inv; exact H |].
  destruct (length (identify_lower_highs _ 2) <? 2)%nat;
    [left; apply fallback_inv; exact H |].
  destruct (create_downtrend_line _) as [[line |] | e];
    cbn [mbind result_bind] in H;
    [| left; apply fallback_inv; exact H | discriminate].
  destruct (last _) as [last_high |]; [| discriminate].
  destruct (detect_breakout close_series (Some line) (sw_date last_high))
    as [b |] eqn:Hb; [| left; apply fallback_inv; exact H].
  right. exists line, b, last_high. split; [exact Hb |].
  destruct (last (List.filter _ _)) as [pre |];
    [| left; injection H as <- <-; auto].
  destruct (confirm_higher_low low_series (Some b) pre 12)
    as [[c |] | e] eqn:Hc; cbn [mbind result_bind] in H;
    [| left; injection H as <- <-; auto | discriminate].
  destruct (confirmed c) eqn:Hconf.
  - right. exists pre, c. injection H as <- <-. auto.
  - left. injection H as <- <-. auto.
Qed.

Lemma idxmin_in_dates (s : Series) (d : Z) :
  idxmin s = Ok d -> d ∈ s.*1.
Proof.
  intros H. destruct s as [| b tl]; [discriminate |].
  destruct (idxmin_spec (b :: tl)) as (i & d' & v & Hidx & Hi & _);
    [discriminate |].
  rewrite H in Hidx. injection Hidx as <-.
  apply list_elem_of_fmap. exists (d, v). split; [reflexivity |].
  apply list_elem_of_lookup. eauto.
Qed.

Lemma trend_start_is_a_date (close_series high_series low_series : Series)
    (d : Z) (info : DetectionInfo) :
  detect_trend_change close_series high_series low_series = Ok (d, info) ->
  d ∈ close_series.*1 \/ d ∈ low_series.*1.
Proof.
  intros H.
  apply detect_trend_change_cases in H
    as [[_ Hidx] | (line & b & last_high & Hb & Hrest)].
  { left. apply idxmin_in_dates. exact Hidx. }
  destruct Hrest as [[_ ->] | (pre & c & Hc & _ & _ & ->)].
  - left. apply detect_breakout_bar in Hb.
    apply list_elem_of_fmap. exists (bk_date b, bk_price b). auto.
  - right. destruct (confirm_higher_low_inv low_series b pre 12)
      as (o & Ho & Hspec).
    rewrite Hc in Ho. injection Ho as <-.
    destruct (Hspec c eq_refl) as (_ & _ & v & Hin & _).
    apply list_elem_of_fmap. exists (cf_date c, v). auto.
Qed.



Lemma init_trend (ticker : string) (close_series high_series low_series : Series)
    (self : ConstrainedFbisOptimizer) :
  init ticker close_series high_series low_series = Ok self ->
  detect_trend_change close_series high_series low_series
  = Ok (trend_start self, detection_info self).
Proof.
  unfold init.
  destruct (detect_trend_change close_series high_series low_series)
    as [[ts info] | e]; simpl; [| discriminate].
  intros [= <-]. reflexivity.
Qed.

(** X9: when the low series carries the same dates as the close series,
    the optimiser built by [__init__] has at least one bar in its
    evaluation window: the trend start is always the date of a bar. *)
Theorem evaluation_window_never_empty
    (ticker : string) (close_series high_series low_series : Series)
    (self : ConstrainedFbisOptimizer) :
  init ticker close_series high_series low_series = Ok self ->
  low_series.*1 = close_series.*1 ->
  trend_start self ∈ close_series.*1
  /\ select (opt_mask self) (close self).*2 <> [].
Proof.
  intros Hinit Hdates.
  pose proof (init_trend _ _ _ _ _ Hinit) as Htrend.
  destruct (init_fields _ _ _ _ _ Hinit) as (_ & Hcl & _).
  assert (Hin : trend_start self ∈ close_series.*1).
  { apply trend_start_is_a_date in Htrend as [Hin | Hin]; [exact Hin |].
    rewrite <- Hdates. exact Hin. }
  split; [exact Hin |].
  apply list_elem_of_fmap in Hin as ([d c] & Hd & Hin). simpl in Hd.
  apply list_elem_of_lookup in Hin as [j Hj].
  rewrite Hcl. intros Hnil.
  assert (Hsel : select (opt_mask self) close_series.*2
                   !! count_true (take j (opt_mask self)) = Some c).
  { apply select_lookup.
    - rewrite opt_mask_length, Hcl, length_fmap. reflexivity.
    - unfold opt_mask. rewrite Hcl, lookup_map, Hj. simpl.
      f_equal. apply Z.leb_le. lia.
    - rewrite list_lookup_fmap, Hj. reflexivity. }
  rewrite Hnil in Hsel. discriminate.
Qed.

Lemma evaluation_window_never_empty_witness :
  trend_start ex_dip_optimizer ∈ (weekly ex_dip_close).*1
  /\ select (opt_mask ex_dip_optimizer) (close ex_dip_optimizer).*2 <> [].
Proof.
  apply (evaluation_window_never_empty
           "SPY" (weekly ex_dip_close) (weekly ex_dip_close)
           (weekly ex_dip_low) ex_dip_optimizer).
  - vm_compute. reflexivity.
  - reflexivity.
Defined.

(** *** Trend detection never fails on dated bars *)












(** *** Results of the optimiser *)

Lemma count_bars_total (fbis_line : list Q) :
  forall (opt_low opt_close : list Q) (t b : nat),
    ((count_bars fbis_line opt_low opt_close t b).1
     + (count_bars fbis_line opt_low opt_close t b).2
     <= t + b + length opt_close)%nat.
Proof.
  induction fbis_line as [| f ftl IH]; intros ol oc t b; simpl; [lia |].
  destruct ol as [| l ltl]; [simpl; lia |].
  destruct oc as [| c ctl]; [simpl; lia |].
  destruct (classify_bar f l c); simpl.
  - specialize (IH ltl ctl (S t) b). lia.
  - specialize (IH ltl ctl t (S b)). lia.
  - specialize (IH ltl ctl t b). lia.
Qed.

Lemma cand_result_fields (self : ConstrainedFbisOptimizer)
    (opt_low opt_close : list Q) (c : Z * Q) :
  let r := cand_result self opt_low opt_close c in
  (res_period r, res_shift r) = c
  /\ (res_tests r, res_breaches r)
     = evaluate self opt_low opt_close c.1 c.2
  /\ res_score r = score_of (res_tests r) (res_breaches r)
  /\ res_trend_start r = trend_start self
  /\ res_asset_class r = Some (asset_class self).
Proof.
  unfold cand_result. destruct c as [period shift]. simpl.
  destruct (evaluate self opt_low opt_close period shift). simpl.
  repeat split.
Qed.



(** X11: [optimize] returns a result whenever the low series is as long
    as the close series.  Whatever it returns carries the optimiser's
    trend start, a score equal to tests * 1.0 - breaches * 3.0, and no
    more tests and breaches together than the window has bars; it is
    either the fixed default (period 20, shift -0.05, no asset class) or a
    candidate of the asset-class grid with the counts of its own
    evaluation. *)
Theorem optimize_result_invariants (self : ConstrainedFbisOptimizer) :
  (length (low self) = length (close self) ->
   exists r, optimize self = Ok r)
  /\ (forall r,
        optimize self = Ok r ->
        let opt_close := select (opt_mask self) (close self).*2 in
        let opt_low := select (opt_mask self) (low self).*2 in
        res_trend_start r = trend_start self
        /\ (res_score r == score_of (res_tests r) (res_breaches r))%Q
        /\ (res_tests r + res_breaches r <= length opt_close)%nat
        /\ (r = default_result (trend_start self)
            \/ (res_asset_class r = Some (asset_class self)
                /\ (res_period r, res_shift r)
                   ∈ candidates (constraints self)
                /\ (res_tests r, res_breaches r)
                   = evaluate self opt_low opt_close
                              (res_period r) (res_shift r)))).
Proof.
  assert (Hdefault :
            let r := default_result (trend_start self) in
            res_trend_start r = trend_start self
            /\ (res_score r == score_of (res_tests r) (res_breaches r))%Q
            /\ (res_tests r + res_breaches r
                <= length (select (opt_mask self) (close self).*2))%nat
            /\ (r = default_result (trend_start self)
                \/ (res_asset_class r = Some (asset_class self)
                    /\ (res_period r, res_shift r)
                       ∈ candidates (constraints self)
                    /\ (res_tests r, res_breaches r)
                       = evaluate self
                           (select (opt_mask self) (low self).*2)
                           (select (opt_mask self) (close self).*2)
                           (res_period r) (res_shift r)))).
  { simpl. split; [reflexivity |]. split; [reflexivity |].
    split; [lia |]. left. reflexivity. }
  split.
  - intros Hal. unfold optimize. rewrite (opt_low_aligned self Hal).
    cbn [mbind result_bind].
    destruct (length _ <? 10)%nat; [eauto |].
    destruct (grid_search _ _ _).1; eauto.
  - intros r Hr opt_close opt_low. unfold optimize in Hr.
    destruct (bool_index (opt_mask self) (low self).*2) as [ol | e] eqn:Hol;
      cbn [mbind result_bind] in Hr; [| discriminate].
    assert (ol = opt_low) as ->.
    { unfold bool_index in Hol.
      destruct (length (opt_mask self) =? length (low self).*2)%nat;
        [| discriminate].
      injection Hol as <-. reflexivity. }
    fold opt_close in Hr.
    destruct (length opt_close <? 10)%nat;
      [injection Hr as <-; exact Hdefault |].
    rewrite grid_search_flat in Hr.
    destruct (fold_consider_spec self opt_low opt_close
                (candidates (constraints self)) (None, (-999999)%Q))
      as [[Heq _] | (l1 & x & l2 & Hl & Heq & _)]; rewrite Heq in Hr;
      simpl in Hr; injection Hr as <-; [exact Hdefault |].
    destruct (cand_result_fields self opt_low opt_close x)
      as (Hx & Hev & Hsc & Hts & Hac).
    split; [exact Hts |]. split; [rewrite Hsc; reflexivity |].
    split.
    + pose proof (count_bars_total
                    (fbis_line self x.1 x.2) opt_low opt_close 0 0) as Hb.
      unfold evaluate in Hev. rewrite <- Hev in Hb. simpl in Hb. exact Hb.
    + right. rewrite Hx. split; [exact Hac |]. split.
      * rewrite Hl. apply elem_of_app. right. left.
      * pose proof (f_equal fst Hx) as H1. pose proof (f_equal snd Hx) as H2.
        simpl in H1, H2. rewrite Hev. congruence.
Qed.

Lemma optimize_result_invariants_witness :
  exists r, optimize (ex_optimizer "BIL") = Ok r.
Proof.
  apply (proj1 (optimize_result_invariants (ex_optimizer "BIL"))).
  reflexivity.
Defined.

(** *** The batch runner *)











(** *** Instances on small series *)

Lemma find_swing_highs_spec_witness :
  exists i,
    (1 <= i)%nat /\ (i + 1 < length (weekly [1; 3; 2]%Q))%nat
    /\ weekly [1; 3; 2]%Q !! i = Some (7%Z, 3%Q)
    /\ forall j v, (i - 1 <= j <= i + 1)%nat ->
                   (weekly [1; 3; 2]%Q).*2 !! j = Some v -> (v <= 3)%Q.
Proof.
  apply (proj1 (find_swing_highs_spec (weekly [1; 3; 2]%Q) 1
                  {| sw_date := 7; sw_price := 3 |})).
  vm_compute. left.
Defined.

Lemma find_swing_lows_spec_witness :
  exists i,
    (1 <= i)%nat /\ (i + 1 < length (weekly [3; 1; 2]%Q))%nat
    /\ weekly [3; 1; 2]%Q !! i = Some (7%Z, 1%Q)
    /\ forall j v, (i - 1 <= j <= i + 1)%nat ->
                   (weekly [3; 1; 2]%Q).*2 !! j = Some v -> (1 <= v)%Q.
Proof.
  apply (proj1 (find_swing_lows_spec (weekly [3; 1; 2]%Q) 1
                  {| sw_date := 7; sw_price := 1 |})).
  vm_compute. left.
Defined.

Lemma identify_lower_highs_spec_witness :
  let swing_highs :=
    [ {| sw_date := 0; sw_price := 10 |};
      {| sw_date := 35; sw_price := 9 |};
      {| sw_date := 70; sw_price := 8 |} ]%Q in
  (length (run_from swing_highs 1)
   <= length (identify_lower_highs swing_highs 2))%nat.
Proof.
  intros swing_highs.
  apply (proj2 (identify_lower_highs_spec swing_highs 2) 1%nat).
  - simpl. lia.
  - vm_compute. lia.
Defined.

Lemma detect_breakout_first_crossing_witness :
  let line := {| slope := -1 # 7; intercept := 110; r_squared := 1;
                 first_date := 0 |} in
  exists i,
    weekly [110; 108; 105; 109; 111]%Q !! i = Some (21%Z, 109%Q)
    /\ (7 < 21)%Z
    /\ (resistance_at_date line 21 < 109)%Q
    /\ forall j d v, (j < i)%nat ->
                     weekly [110; 108; 105; 109; 111]%Q !! j = Some (d, v) ->
                     (7 < d)%Z -> (v <= resistance_at_date line d)%Q.
Proof.
  intros line.
  pose proof (detect_breakout_first_crossing
                (weekly [110; 108; 105; 109; 111]%Q) line 7) as H.
  replace (detect_breakout (weekly [110; 108; 105; 109; 111]%Q)
                           (Some line) 7)
    with (Some {| bk_date := 21; bk_price := 109 |}) in H
    by (vm_compute; reflexivity).
  exact H.
Defined.

Lemma confirm_higher_low_spec_witness :
  exists o,
    confirm_higher_low (weekly [100; 95; 98; 97; 99]%Q)
                       (Some {| bk_date := 7; bk_price := 101 |})
                       {| sw_date := 7; sw_price := 95 |} 12
    = Ok o
    /\ match o with
       | Some c =>
           confirmed c = true
           /\ (7 < cf_date c <= 7 + 7 * 12)%Z
           /\ exists v,
                (cf_date c, v) ∈ weekly [100; 95; 98; 97; 99]%Q
                /\ (95 < v)%Q
                /\ forall d' v',
                     (d', v') ∈ weekly [100; 95; 98; 97; 99]%Q ->
                     (7 < d' <= 7 + 7 * 12)%Z -> (v <= v')%Q
       | None =>
           forall d v,
             (d, v) ∈ weekly [100; 95; 98; 97; 99]%Q ->
             (7 < d <= 7 + 7 * 12)%Z ->
             exists d' v',
               (d', v') ∈ weekly [100; 95; 98; 97; 99]%Q
               /\ (7 < d' <= 7 + 7 * 12)%Z /\ (v' <= 95)%Q
       end.
Proof.
  apply (confirm_higher_low_spec
           (weekly [100; 95; 98; 97; 99]%Q)
           {| bk_date := 7; bk_price := 101 |}
           {| sw_date := 7; sw_price := 95 |} 12).
Defined.

(** *** The EMA of the risk layer *)

Lemma smoothing_factor_range (period : Z) :
  (1 <= period)%Z ->
  (0 < 2 / IZR (period + 1) <= 1)%R.
Proof.
  intros Hp.
  assert (Hx : (2 <= IZR (period + 1))%R) by (apply IZR_le; lia).
  assert (Hinv : (0 < / IZR (period + 1))%R)
    by (apply Rinv_0_lt_compat; lra).
  assert (Hone : (IZR (period + 1) * / IZR (period + 1) = 1)%R)
    by (apply Rinv_r; lra).
  unfold Rdiv. split; nra.
Qed.

Lemma ema_loop_bounded (k lo hi : R) (rest : list R) :
  (0 <= k <= 1)%R ->
  Forall (fun p => (lo <= p <= hi)%R) rest ->
  forall prev, (lo <= prev <= hi)%R ->
    Forall (fun e => (lo <= e <= hi)%R) (Core.ema_loop k prev rest).
Proof.
  intros Hk Hall. induction Hall as [| p tl Hp Htl IH]; intros prev Hprev;
    simpl; constructor.
  - nra.
  - apply IH. nra.
Qed.

Lemma ema_loop_length (k : R) (rest : list R) :
  forall prev, length (Core.ema_loop k prev rest) = length rest.
Proof.
  induction rest as [| p tl IH]; intros prev; simpl; [reflexivity |].
  rewrite IH. reflexivity.
Qed.

(** X14: for a period of at least 1 and a non-empty price array,
    [calculate_ema] returns an array of the same length that starts at the
    first price and never leaves the range of the prices: every value lies
    between any lower and upper bound of the prices. *)
Theorem calculate_ema_within_price_range (prices : list R) (period : Z)
    (lo hi : R) :
  (1 <= period)%Z ->
  prices <> [] ->
  Forall (fun p => (lo <= p <= hi)%R) prices ->
  exists ema,
    Core.calculate_ema prices period = Ok ema
    /\ length ema = length prices
    /\ head ema = head prices
    /\ Forall (fun e => (lo <= e <= hi)%R) ema.
Proof.
  intros Hp Hne Hall. destruct prices as [| p0 tl]; [contradiction |].
  unfold Core.calculate_ema.
  destruct (period + 1 =? 0)%Z eqn:E; [apply Z.eqb_eq in E; lia |].
  eexists. split; [reflexivity |].
  apply Forall_cons in Hall as [H0 Htl].
  split; [simpl; rewrite ema_loop_length; reflexivity |].
  split; [reflexivity |].
  constructor; [exact H0 |].
  apply ema_loop_bounded; [| exact Htl | exact H0].
  pose proof (smoothing_factor_range period Hp). lra.
Qed.

Lemma calculate_ema_within_price_range_witness :
  exists ema,
    Core.calculate_ema [100; 102; 101]%R 8 = Ok ema
    /\ length ema = length [100; 102; 101]%R
    /\ head ema = head [100; 102; 101]%R
    /\ Forall (fun e => (100 <= e <= 102)%R) ema.
Proof.
  apply calculate_ema_within_price_range.
  - lia.
  - discriminate.
  - repeat constructor; lra.
Defined.






(** *** Behaviour of the SATID score *)

Lemma clamp_monotone (x y : R) :
  (x <= y)%R -> (Rmax 0 (Rmin 100 x) <= Rmax 0 (Rmin 100 y))%R.
Proof.
  intros H. unfold Rmax, Rmin.
  destruct (Rle_dec 100 x); destruct (Rle_dec 100 y);
    repeat match goal with
           | |- context [Rle_dec ?a ?b] => destruct (Rle_dec a b)
           end; lra.
Qed.

Lemma clamp_range (x : R) : (0 <= Rmax 0 (Rmin 100 x) <= 100)%R.
Proof.
  unfold Rmax, Rmin.
  destruct (Rle_dec 100 x);
    repeat match goal with
           | |- context [Rle_dec ?a ?b] => destruct (Rle_dec a b)
           end; lra.
Qed.

Lemma score_range (d v h : R) :
  (0 <= Core.calculate_satid_score_linear d v h <= 100)%R.
Proof.
  unfold Core.calculate_satid_score_linear.
  destruct (Rle_dec d 0); [lra | apply clamp_range].
Qed.

Lemma horizon_volatility_positive (v h : R) :
  (0 < v)%R -> (0 < h)%R -> (0 < v * sqrt h)%R.
Proof.
  intros Hv Hh. apply Rmult_lt_0_compat; [exact Hv |].
  apply sqrt_lt_R0. exact Hh.
Qed.

Lemma z_score_monotone (d1 d2 v h : R) :
  (0 < v)%R -> (0 < h)%R -> (d1 <= d2)%R ->
  (Core.z_score_of d1 v h <= Core.z_score_of d2 v h)%R.
Proof.
  intros Hv Hh Hd. unfold Core.z_score_of, Rdiv. cbv zeta.
  pose proof (horizon_volatility_positive v h Hv Hh) as Hpos.
  apply Rinv_0_lt_compat in Hpos.
  apply Rmult_le_compat_r; lra.
Qed.

(** X16: for a positive volatility and a positive horizon the score never
    rises with the distance to support: an instrument farther above its
    support never scores higher than one closer to it. *)
Theorem score_decreases_with_distance (d1 d2 v h : R) :
  (0 < v)%R -> (0 < h)%R -> (d1 <= d2)%R ->
  (Core.calculate_satid_score_linear d2 v h
   <= Core.calculate_satid_score_linear d1 v h)%R.
Proof.
  intros Hv Hh Hd.
  pose proof (score_range d2 v h) as Hr2.
  unfold Core.calculate_satid_score_linear in *.
  destruct (Rle_dec d1 0) as [H1 | H1].
  - destruct (Rle_dec d2 0); lra.
  - destruct (Rle_dec d2 0) as [H2 | H2]; [lra |].
    apply clamp_monotone.
    pose proof (z_score_monotone d1 d2 v h Hv Hh Hd). lra.
Qed.

Lemma score_decreases_with_distance_witness :
  (Core.calculate_satid_score_linear 0.08 0.02 1
   <= Core.calculate_satid_score_linear 0.05 0.02 1)%R.
Proof.
  apply score_decreases_with_distance; lra.
Defined.

Lemma score_horizon_le (d v h1 h2 : R) :
  (0 < v)%R -> (0 < h1)%R -> (h1 <= h2)%R ->
  (Core.calculate_satid_score_linear d v h1
   <= Core.calculate_satid_score_linear d v h2)%R.
Proof.
  intros Hv Hh Hle.
  unfold Core.calculate_satid_score_linear.
  destruct (Rle_dec d 0) as [Hd | Hd]; [lra |].
  apply clamp_monotone. unfold Core.z_score_of, Rdiv. cbv zeta.
  assert (Hs : (sqrt h1 <= sqrt h2)%R) by (apply sqrt_le_1_alt; exact Hle).
  assert (Hs1 : (0 < sqrt h1)%R) by (apply sqrt_lt_R0; exact Hh).
  assert (Hinv : (/ (v * sqrt h2) <= / (v * sqrt h1))%R).
  { apply Rinv_le_contravar; nra. }
  nra.
Qed.

(** X17: for a positive volatility the score never falls when the horizon
    grows, since over a longer horizon the same distance is fewer standard
    deviations away; so whenever [analyze_etf_risk] measures a positive
    volatility, its one-month score is at least its one-week score. *)
Theorem score_increases_with_horizon (d v h1 h2 : R)
    (ticker : string) (prices : list R)
    (fbis_params : gmap string Core.ParamEntry) (weeks_lookback : Z) :
  ((0 < v)%R -> (0 < h1)%R -> (h1 <= h2)%R ->
   (Core.calculate_satid_score_linear d v h1
    <= Core.calculate_satid_score_linear d v h2)%R)
  /\ (forall r,
        Core.analyze_etf_risk ticker prices fbis_params weeks_lookback
        = Ok r ->
        (0 < Core.volatility_weekly r)%R ->
        (Core.satid_score_1week r <= Core.satid_score_1month r)%R).
Proof.
  split; [apply score_horizon_le |].
  intros r Hr. unfold Core.analyze_etf_risk in Hr.
  destruct (last prices) as [cp |]; [| discriminate].
  destruct (Core.calculate_ema prices _) as [ema | e];
    cbn [mbind result_bind] in Hr; [| discriminate].
  destruct (last ema) as [e |]; [| discriminate].
  injection Hr as <-. simpl.
  intros Hv. apply score_horizon_le; lra.
Qed.

Lemma score_increases_with_horizon_witness :
  (Core.calculate_satid_score_linear 0.05 0.02 1
   <= Core.calculate_satid_score_linear 0.05 0.02 4.33)%R.
Proof.
  apply (proj1 (score_increases_with_horizon
                  0.05 0.02 1 4.33 "SPY" [] ∅ 13)); lra.
Defined.

Lemma analyze_etf_risk_inv (ticker : string) (prices : list R)
    (fbis_params : gmap string Core.ParamEntry) (weeks_lookback : Z)
    (r : Core.EtfRisk) :
  Core.analyze_etf_risk ticker prices fbis_params weeks_lookback = Ok r ->
  Core.risk_ticker r = ticker /\ scores_in_range r.
Proof.
  intros Hr. unfold Core.analyze_etf_risk in Hr.
  destruct (last prices) as [cp |]; [| discriminate].
  destruct (Core.calculate_ema prices _) as [ema | e];
    cbn [mbind result_bind] in Hr; [| discriminate].
  destruct (last ema) as [e |]; [| discriminate].
  injection Hr as <-. simpl.
  split; [reflexivity |]. split; apply score_range.
Qed.

(** X18: [analyze_etf_risk] raises IndexError on an empty price array and
    ZeroDivisionError when the stored period is -1; otherwise it returns a
    result that carries the ticker, the last price as current price, no
    allocation yet, and both scores in [0, 100]. *)
Theorem analyze_etf_risk_result (ticker : string) (prices : list R)
    (fbis_params : gmap string Core.ParamEntry) (weeks_lookback : Z) :
  (prices = [] ->
   Core.analyze_etf_risk ticker prices fbis_params weeks_lookback
   = Raise IndexError)
  /\ (prices <> [] -> Core.get_period fbis_params ticker = (-1)%Z ->
      Core.analyze_etf_risk ticker prices fbis_params weeks_lookback
      = Raise ZeroDivisionError)
  /\ (prices <> [] -> Core.get_period fbis_params ticker <> (-1)%Z ->
      exists r,
        Core.analyze_etf_risk ticker prices fbis_params weeks_lookback
        = Ok r
        /\ Core.risk_ticker r = ticker
        /\ last prices = Some (Core.current_price r)
        /\ Core.allocation r = 0%R
        /\ scores_in_range r).
Proof.
  split; [intros ->; reflexivity |].
  assert (Hlast : prices <> [] -> exists cp, last prices = Some cp).
  { intros Hne. destruct (last prices) as [cp |] eqn:E; [eauto |].
    apply last_None in E. contradiction. }
  split.
  - intros Hne Hp. destruct (Hlast Hne) as [cp Hcp].
    unfold Core.analyze_etf_risk, Core.calculate_ema.
    rewrite Hcp, Hp. destruct prices; [contradiction | reflexivity].
  - intros Hne Hp. destruct (Hlast Hne) as [cp Hcp].
    unfold Core.analyze_etf_risk, Core.calculate_ema. rewrite Hcp.
    destruct prices as [| p0 tl]; [contradiction |].
    destruct (Core.get_period fbis_params ticker + 1 =? 0)%Z eqn:E;
      [apply Z.eqb_eq in E; lia |].
    cbn [mbind result_bind].
    match goal with
    | |- context [last (p0 :: ?l)] =>
        destruct (last (p0 :: l)) as [e |] eqn:Hl;
          [| apply last_None in Hl; discriminate]
    end.
    eexists. split; [reflexivity |]. simpl.
    split; [reflexivity |]. split; [reflexivity |].
    split; [reflexivity |]. split; apply score_range.
Qed.

Lemma analyze_etf_risk_result_witness :
  Core.analyze_etf_risk "SPY" [] ∅ 13 = Raise IndexError
  /\ exists r,
       Core.analyze_etf_risk "SPY" [100; 102; 101]%R ∅ 13 = Ok r
       /\ Core.risk_ticker r = "SPY"%string
       /\ last [100; 102; 101]%R = Some (Core.current_price r)
       /\ Core.allocation r = 0%R
       /\ scores_in_range r.
Proof.
  split.
  - apply (proj1 (analyze_etf_risk_result "SPY" [] ∅ 13)). reflexivity.
  - apply (proj2 (proj2 (analyze_etf_risk_result
                           "SPY" [100; 102; 101]%R ∅ 13))).
    + discriminate.
    + vm_compute. discriminate.
Defined.

(** *** Risk levels *)

Lemma score_at_least (t d v h : R) :
  (0 < v)%R -> (0 < h)%R -> (0 < t <= 100)%R ->
  (t <= Core.calculate_satid_score_linear d v h)%R
  <-> (Core.z_score_of d v h <= (100 - t) / 25)%R.
Proof.
  intros Hv Hh Ht.
  pose proof (horizon_volatility_positive v h Hv Hh) as Hpos.
  unfold Core.calculate_satid_score_linear.
  destruct (Rle_dec d 0) as [Hd | Hd].
  - assert (Hz : (Core.z_score_of d v h <= 0)%R).
    { unfold Core.z_score_of, Rdiv. cbv zeta.
      apply Rinv_0_lt_compat in Hpos. nra. }
    split; intros _; lra.
  - cbv zeta. set (z := Core.z_score_of d v h).
    unfold Rmax, Rmin.
    destruct (Rle_dec 100 (100 - z * 25));
      repeat match goal with
             | |- context [Rle_dec ?a ?b] => destruct (Rle_dec a b)
             end; split; intros H; lra.
Qed.

(** X19: the risk level follows the z-score in fixed bands.  For a
    positive volatility and horizon the level of the score is CRITICAL up
    to 0.4 standard deviations above support, HIGH up to 1, MODERATE up to
    2, LOW up to 3 and MINIMAL beyond. *)
Theorem risk_level_bands (d v h : R) :
  (0 < v)%R -> (0 < h)%R ->
  let z := Core.z_score_of d v h in
  let level :=
    (Core.get_risk_level_class
       (Core.calculate_satid_score_linear d v h)).2 in
  (level = "CRITICAL"%string <-> (z <= 0.4)%R)
  /\ (level = "HIGH"%string <-> (0.4 < z <= 1)%R)
  /\ (level = "MODERATE"%string <-> (1 < z <= 2)%R)
  /\ (level = "LOW"%string <-> (2 < z <= 3)%R)
  /\ (level = "MINIMAL"%string <-> (3 < z)%R).
Proof.
  intros Hv Hh z level.
  pose proof (score_at_least 90 d v h Hv Hh ltac:(lra)) as H90.
  pose proof (score_at_least 75 d v h Hv Hh ltac:(lra)) as H75.
  pose proof (score_at_least 50 d v h Hv Hh ltac:(lra)) as H50.
  pose proof (score_at_least 25 d v h Hv Hh ltac:(lra)) as H25.
  fold z in H90, H75, H50, H25.
  replace ((100 - 90) / 25)%R with 0.4%R in H90 by lra.
  replace ((100 - 75) / 25)%R with 1%R in H75 by lra.
  replace ((100 - 50) / 25)%R with 2%R in H50 by lra.
  replace ((100 - 25) / 25)%R with 3%R in H25 by lra.
  unfold level, Core.get_risk_level_class.
  set (score := Core.calculate_satid_score_linear d v h) in *.
  assert (B90 : (90 <= score -> z <= 0.4)%R /\ (~ (90 <= score) -> 0.4 < z)%R).
  { split; [tauto |]. intros G. apply Rnot_le_lt. tauto. }
  assert (B75 : (75 <= score -> z <= 1)%R /\ (~ (75 <= score) -> 1 < z)%R).
  { split; [tauto |]. intros G. apply Rnot_le_lt. tauto. }
  assert (B50 : (50 <= score -> z <= 2)%R /\ (~ (50 <= score) -> 2 < z)%R).
  { split; [tauto |]. intros G. apply Rnot_le_lt. tauto. }
  assert (B25 : (25 <= score -> z <= 3)%R /\ (~ (25 <= score) -> 3 < z)%R).
  { split; [tauto |]. intros G. apply Rnot_le_lt. tauto. }
  clear H90 H75 H50 H25.
  destruct B90 as [P90 N90], B75 as [P75 N75], B50 as [P50 N50],
           B25 as [P25 N25].
  destruct (Rle_dec 90 score) as [G90 | G90];
    [apply P90 in G90
    | apply N90 in G90;
      destruct (Rle_dec 75 score) as [G75 | G75];
      [apply P75 in G75
      | apply N75 in G75;
        destruct (Rle_dec 50 score) as [G50 | G50];
        [apply P50 in G50
        | apply N50 in G50;
          destruct (Rle_dec 25 score) as [G25 | G25];
          [apply P25 in G25 | apply N25 in G25]]]];
    simpl; clear P90 N90 P75 N75 P50 N50 P25 N25;
    (split; [| split; [| split; [| split]]]);
    (split; intros Hx; try discriminate Hx; try reflexivity; lra).
Qed.

Lemma risk_level_bands_witness :
  let z := Core.z_score_of 0.05 0.02 1 in
  let level :=
    (Core.get_risk_level_class
       (Core.calculate_satid_score_linear 0.05 0.02 1)).2 in
  (level = "CRITICAL"%string <-> (z <= 0.4)%R)
  /\ (level = "HIGH"%string <-> (0.4 < z <= 1)%R)
  /\ (level = "MODERATE"%string <-> (1 < z <= 2)%R)
  /\ (level = "LOW"%string <-> (2 < z <= 3)%R)
  /\ (level = "MINIMAL"%string <-> (3 < z)%R).
Proof.
  apply risk_level_bands; lra.
Defined.

(** X20: the three scripts classify every score alike: the CSS class and
    label of [get_risk_level_class], the colour and label of
    [get_risk_color_and_label] and the colour of [get_risk_color_hex]
    always form one row of the five-level table. *)
Theorem risk_level_functions_agree (score : R) :
  (Core.get_risk_level_class score).2
  = (Dashboard.get_risk_color_and_label score).2
  /\ ((Core.get_risk_level_class score).1,
      (Core.get_risk_level_class score).2,
      (Dashboard.get_risk_color_and_label score).1,
      Dashboard.get_risk_color_hex score) ∈ risk_levels.
Proof.
  unfold Core.get_risk_level_class, Dashboard.get_risk_color_and_label,
    Dashboard.get_risk_color_hex, risk_levels.
  destruct (Rle_dec 90 score);
    [| destruct (Rle_dec 75 score);
       [| destruct (Rle_dec 50 score);
          [| destruct (Rle_dec 25 score)]]];
    simpl; (split; [reflexivity |]).
  - left.
  - right. left.
  - do 2 right. left.
  - do 3 right. left.
  - do 4 right. left.
Qed.

(** *** Portfolio scores *)

Lemma satid_scores_loop_spec (etf_results : list Core.EtfRisk)
    (allocations : gmap string R) :
  forall a1 a2 : R,
    Core.satid_scores_loop etf_results allocations a1 a2
    = ((a1 + Core.Rsum
               (map (fun r =>
                       Core.satid_score_1week r
                       * default 0 (allocations !! Core.risk_ticker r))
                    etf_results))%R,
       (a2 + Core.Rsum
               (map (fun r =>
                       Core.satid_score_1month r
                       * default 0 (allocations !! Core.risk_ticker r))
                    etf_results))%R,
       map (fun r =>
              Core.with_allocation
                (default 0%R (allocations !! Core.risk_ticker r)) r)
           etf_results).
Proof.
  induction etf_results as [| r rest IH]; intros a1 a2; simpl.
  - f_equal. f_equal; lra.
  - rewrite IH. f_equal. f_equal; lra.
Qed.

Lemma weighted_scores_bounded (allocations : gmap string R)
    (score : Core.EtfRisk -> R) (etf_results : list Core.EtfRisk) :
  Forall (fun r => (0 <= score r <= 100)%R) etf_results ->
  (forall t w, allocations !! t = Some w -> (0 <= w)%R) ->
  (0 <= Core.Rsum
          (map (fun r => score r
                         * default 0 (allocations !! Core.risk_ticker r))
               etf_results)
   <= 100 * total_weight allocations etf_results)%R.
Proof.
  intros Hscores Hw. unfold total_weight.
  induction Hscores as [| r rest Hr Hrest IH]; simpl; [lra |].
  assert (Hwr : (0 <= default 0 (allocations !! Core.risk_ticker r))%R).
  { destruct (allocations !! Core.risk_ticker r) as [w |] eqn:E; simpl;
      [eapply Hw; exact E | lra]. }
  nra.
Qed.

(** X21: each portfolio score is the sum of the contributions written
    back into the result dicts, every result gets the weight
    [allocations.get(ticker, 0)] and keeps its scores; and when all ETF
    scores lie in [0, 100] and no weight is negative, each portfolio score
    lies between 0 and 100 times the total weight of the results. *)
Theorem portfolio_scores_are_weighted_sums
    (etf_results : list Core.EtfRisk) (allocations : gmap string R) :
  let out := Core.calculate_portfolio_satid_scores etf_results allocations in
  out.1.1 = Core.Rsum (map Core.contribution_1week out.2)
  /\ out.1.2 = Core.Rsum (map Core.contribution_1month out.2)
  /\ out.2
     = map (fun r =>
              Core.with_allocation
                (default 0%R (allocations !! Core.risk_ticker r)) r)
           etf_results
  /\ (Forall scores_in_range etf_results ->
      (forall t w, allocations !! t = Some w -> (0 <= w)%R) ->
      (0 <= out.1.1 <= 100 * total_weight allocations etf_results)%R
      /\ (0 <= out.1.2 <= 100 * total_weight allocations etf_results)%R).
Proof.
  intros out. unfold out, Core.calculate_portfolio_satid_scores.
  rewrite satid_scores_loop_spec. simpl.
  rewrite !map_map. simpl.
  split; [lra |]. split; [lra |]. split; [reflexivity |].
  intros Hscores Hw. rewrite !Rplus_0_l. split.
  - apply (weighted_scores_bounded allocations Core.satid_score_1week);
      [| exact Hw].
    eapply Forall_impl; [exact Hscores |]. intros r [H _]. exact H.
  - apply (weighted_scores_bounded allocations Core.satid_score_1month);
      [| exact Hw].
    eapply Forall_impl; [exact Hscores |]. intros r [_ H]. exact H.
Qed.

Lemma analyze_all_spec (df : Core.Frame)
    (fbis_params : gmap string Core.ParamEntry)
    (allocations : list (string * R)) :
  forall etf_results,
    Dashboard.analyze_all df fbis_params allocations.*1 = Ok etf_results ->
    map Core.risk_ticker etf_results
    = (present_allocations df allocations).*1
    /\ Forall scores_in_range etf_results.
Proof.
  induction allocations as [| [t w] rest IH]; intros results H.
  - simpl in H. injection H as <-. split; [reflexivity | constructor].
  - change (Dashboard.analyze_all df fbis_params (t :: rest.*1)
            = Ok results) in H.
    cbn [Dashboard.analyze_all] in H.
    unfold present_allocations. simpl.
    destruct (Core.fr_columns df !! (t +:+ "_close")) as [prices |];
      [| apply IH; exact H].
    destruct (Core.analyze_etf_risk t prices fbis_params 13)
      as [r | e] eqn:Hr; cbn [mbind result_bind] in H; [| discriminate].
    destruct (Dashboard.analyze_all df fbis_params rest.*1)
      as [rs | e]; cbn [mbind result_bind] in H; [| discriminate].
    injection H as <-.
    apply analyze_etf_risk_inv in Hr as [Ht Hrange].
    destruct (IH rs eq_refl) as [Htick Hall].
    split; [simpl; f_equal; assumption | constructor; assumption].
Qed.

Lemma total_weight_present (df : Core.Frame)
    (allocations : list (string * R)) (m : gmap string R) :
  (forall t w, (t, w) ∈ allocations -> m !! t = Some w) ->
  (forall t w, (t, w) ∈ allocations -> (0 <= w)%R) ->
  forall etf_results,
    map Core.risk_ticker etf_results
    = (present_allocations df allocations).*1 ->
    (0 <= total_weight m etf_results <= Core.Rsum allocations.*2)%R.
Proof.
  unfold total_weight, present_allocations.
  induction allocations as [| [t w] rest IH]; intros Hm Hw results Ht;
    simpl in *.
  - destruct results; [simpl; lra | discriminate].
  - assert (Hw0 : (0 <= w)%R) by (apply (Hw t); left).
    assert (IH' : forall results,
              map Core.risk_ticker results
              = (List.filter
                   (fun item : string * R =>
                      match Core.fr_columns df !! (item.1 +:+ "_close") with
                      | Some _ => true
                      | None => false
                      end) rest).*1 ->
              (0 <= Core.Rsum
                      (map (fun r =>
                              default 0%R (m !! Core.risk_ticker r))
                           results)
               <= Core.Rsum rest.*2)%R).
    { apply IH.
      - intros t' w' Hin. apply Hm. right. exact Hin.
      - intros t' w' Hin. apply (Hw t'). right. exact Hin. }
    destruct (Core.fr_columns df !! (t +:+ "_close")).
    + destruct results as [| r rs]; [discriminate |].
      simpl in Ht. injection Ht as Hr Hrs.
      specialize (IH' rs Hrs). simpl.
      rewrite Hr, (Hm t w) by left. simpl.
      change (list_fmap (string * R)%type R snd rest) with rest.*2. lra.
    + specialize (IH' results Ht).
      change (list_fmap (string * R)%type R snd rest) with rest.*2. lra.
Qed.

(** X22: for allocations with distinct tickers and no negative weight,
    the portfolio scores reported by the dashboards lie between 0 and 100
    times the sum of all weights, and the analysed results are the
    allocated tickers that have a close column, in allocation order. *)
Theorem dashboard_scores_bounded (df : Core.Frame)
    (allocations : list (string * R))
    (fbis_params : gmap string Core.ParamEntry)
    (score_1week score_1month : R) (etf_results : list Core.EtfRisk) :
  NoDup allocations.*1 ->
  (forall t w, (t, w) ∈ allocations -> (0 <= w)%R) ->
  Dashboard.portfolio_scores df allocations fbis_params
  = Ok (score_1week, score_1month, etf_results) ->
  (0 <= score_1week <= 100 * Core.Rsum allocations.*2)%R
  /\ (0 <= score_1month <= 100 * Core.Rsum allocations.*2)%R
  /\ map Core.risk_ticker etf_results
     = (present_allocations df allocations).*1.
Proof.
  intros Hnodup Hw H. unfold Dashboard.portfolio_scores in H.
  destruct (Dashboard.analyze_all df fbis_params allocations.*1)
    as [results | e] eqn:Hall; cbn [mbind result_bind] in H;
    [| discriminate].
  apply analyze_all_spec in Hall as [Htick Hrange].
  unfold Core.calculate_portfolio_satid_scores in H.
  rewrite satid_scores_loop_spec in H. injection H as <- <- <-.
  assert (Hm : forall t w, (t, w) ∈ allocations ->
                 (list_to_map allocations : gmap string R) !! t = Some w).
  { intros t w Hin. apply elem_of_list_to_map_1; assumption. }
  assert (Hmw : forall t w,
                  (list_to_map allocations : gmap string R) !! t = Some w ->
                  (0 <= w)%R).
  { intros t w Hl. apply elem_of_list_to_map_2 in Hl. eapply Hw. exact Hl. }
  pose proof (total_weight_present df allocations _ Hm Hw results Htick)
    as Htotal.
  pose proof (weighted_scores_bounded (list_to_map allocations)
                Core.satid_score_1week results) as H1.
  pose proof (weighted_scores_bounded (list_to_map allocations)
                Core.satid_score_1month results) as H2.
  rewrite !Rplus_0_l.
  split; [| split].
  - destruct H1 as [Hlo Hhi]; [| exact Hmw | nra].
    eapply Forall_impl; [exact Hrange |]. intros r [Hr _]. exact Hr.
  - destruct H2 as [Hlo Hhi]; [| exact Hmw | nra].
    eapply Forall_impl; [exact Hrange |]. intros r [_ Hr]. exact Hr.
  - rewrite map_map. simpl. exact Htick.
Qed.

Lemma portfolio_scores_are_weighted_sums_witness :
  let r :=
    {| Core.risk_ticker := "SPY"; Core.current_price := 101;
       Core.fbis := 100; Core.distance_pct := 0.01;
       Core.volatility_weekly := 0.02;
       Core.satid_score_1week := 87.5; Core.satid_score_1month := 94;
       Core.allocation := 0; Core.contribution_1week := 0;
       Core.contribution_1month := 0 |}%R in
  let allocations : gmap string R := {[ "SPY"%string := 0.5%R ]} in
  let out := Core.calculate_portfolio_satid_scores [r] allocations in
  (0 <= out.1.1 <= 100 * total_weight allocations [r])%R
  /\ (0 <= out.1.2 <= 100 * total_weight allocations [r])%R.
Proof.
  intros r allocations out.
  apply (proj2 (proj2 (proj2
           (portfolio_scores_are_weighted_sums [r] allocations)))).
  - constructor; [| constructor]. split; simpl; lra.
  - intros t w H. apply lookup_singleton_Some in H as [_ <-]. lra.
Defined.

Lemma dashboard_scores_bounded_witness :
  exists score_1week score_1month etf_results,
    Dashboard.portfolio_scores
      ex_two_frame [("SPY"%string, 0.6%R); ("XLK"%string, 0.4%R)] ∅
    = Ok (score_1week, score_1month, etf_results)
    /\ (0 <= score_1week <= 100 * Core.Rsum [0.6; 0.4])%R
    /\ (0 <= score_1month <= 100 * Core.Rsum [0.6; 0.4])%R
    /\ map Core.risk_ticker etf_results = ["SPY"%string].
Proof.
  assert (Hok : exists s1 s2 rs,
            Dashboard.portfolio_scores
              ex_two_frame [("SPY"%string, 0.6%R); ("XLK"%string, 0.4%R)] ∅
            = Ok (s1, s2, rs)).
  { do 3 eexists. reflexivity. }
  destruct Hok as (s1 & s2 & rs & Hok).
  exists s1, s2, rs. split; [exact Hok |].
  apply (dashboard_scores_bounded
           ex_two_frame [("SPY"%string, 0.6%R); ("XLK"%string, 0.4%R)] ∅
           s1 s2 rs); [| | exact Hok].
  - simpl. apply NoDup_cons. split; [| apply NoDup_singleton].
    intros H. apply list_elem_of_singleton in H. discriminate.
  - intros t w H.
    apply elem_of_cons in H as [[= -> ->] | H]; [lra |].
    apply list_elem_of_singleton in H as [= -> ->]. lra.
Defined.

(** *** Volatility *)

Lemma pd_tail_tail_slice {A : Type} (weeks : Z) (l : list A) :
  (0 <= weeks)%Z ->
  Core.pd_tail (weeks + 1) l
  = Core.tail_slice
      ((if (Z.of_nat (length l) <? weeks + 1)%Z
        then (Z.of_nat (length l) - 1)%Z else weeks) + 1)
      l.
Proof.
  intros Hw. unfold Core.pd_tail, Core.tail_slice.
  destruct (weeks + 1 =? 0)%Z eqn:E0; [apply Z.eqb_eq in E0; lia |].
  destruct (0 <? weeks + 1)%Z eqn:E1; [| apply Z.ltb_ge in E1; lia].
  destruct (Z.of_nat (length l) <? weeks + 1)%Z eqn:E2.
  - apply Z.ltb_lt in E2.
    replace (length l - Z.to_nat (weeks + 1))%nat with 0%nat by lia.
    destruct (0 <? Z.of_nat (length l) - 1 + 1)%Z eqn:E3.
    + replace (length l - Z.to_nat (Z.of_nat (length l) - 1 + 1))%nat
        with 0%nat by lia.
      reflexivity.
    + apply Z.ltb_ge in E3.
      replace (Z.to_nat (- (Z.of_nat (length l) - 1 + 1))) with 0%nat by lia.
      reflexivity.
  - rewrite E1. reflexivity.
Qed.

Lemma individual_volatilities_lookup (df : Core.Frame) (weeks : Z)
    (tickers : list string) (t : string) :
  forall acc : gmap string R,
    foldl (fun volatilities ticker =>
             match Core.fr_columns df !! (ticker +:+ "_close") with
             | Some column =>
                 let prices := Core.pd_tail (weeks + 1) column in
                 let returns :=
                   zip_with Rdiv (Core.np_diff prices) (removelast prices) in
                 <[ticker := Core.np_std1 returns]> volatilities
             | None => volatilities
             end) acc tickers !! t
    = match Core.fr_columns df !! (t +:+ "_close") with
      | Some column =>
          if bool_decide (t ∈ tickers)
          then Some (Core.np_std1
                       (zip_with Rdiv
                          (Core.np_diff (Core.pd_tail (weeks + 1) column))
                          (removelast (Core.pd_tail (weeks + 1) column))))
          else acc !! t
      | None => acc !! t
      end.
Proof.
  induction tickers as [| t0 rest IH]; intros acc; simpl.
  - destruct (Core.fr_columns df !! (t +:+ "_close")); reflexivity.
  - rewrite IH.
    destruct (Core.fr_columns df !! (t +:+ "_close")) as [col |] eqn:Ht.
    + destruct (decide (t0 = t)) as [-> | Hne].
      * rewrite Ht. rewrite lookup_insert_eq.
        rewrite (bool_decide_eq_true_2 (t ∈ t :: rest)) by left.
        destruct (bool_decide (t ∈ rest)); reflexivity.
      * assert (Hiff : bool_decide (t ∈ t0 :: rest)
                       = bool_decide (t ∈ rest)).
        { apply bool_decide_ext. rewrite elem_of_cons.
          split; [intros [Heq | Hin]; [congruence | exact Hin] |].
          intros Hin. right. exact Hin. }
        rewrite Hiff. destruct (bool_decide (t ∈ rest)); [reflexivity |].
        destruct (Core.fr_columns df !! (t0 +:+ "_close"));
          [rewrite lookup_insert_ne by exact Hne |]; reflexivity.
    + destruct (decide (t0 = t)) as [-> | Hne].
      * rewrite Ht. reflexivity.
      * destruct (Core.fr_columns df !! (t0 +:+ "_close"));
          [rewrite lookup_insert_ne by exact Hne |]; reflexivity.
Qed.

(** X23: the portfolio-level and the ETF-level volatility agree: for a
    lookback of weeks >= 0, [calculate_individual_volatilities] stores for
    every listed ticker with a close column exactly the value
    [calculate_etf_volatility] computes from that column, and stores
    nothing for any other ticker. *)
Theorem individual_volatilities_match (df : Core.Frame)
    (tickers : list string) (weeks : Z) (t : string) :
  (0 <= weeks)%Z ->
  Core.calculate_individual_volatilities df tickers weeks !! t
  = match Core.fr_columns df !! (t +:+ "_close") with
    | Some column =>
        if bool_decide (t ∈ tickers)
        then Some (Core.calculate_etf_volatility column weeks)
        else None
    | None => None
    end.
Proof.
  intros Hw. unfold Core.calculate_individual_volatilities.
  rewrite individual_volatilities_lookup. rewrite lookup_empty.
  destruct (Core.fr_columns df !! (t +:+ "_close")) as [col |];
    [| reflexivity].
  destruct (bool_decide (t ∈ tickers)); [| reflexivity].
  unfold Core.calculate_etf_volatility.
  rewrite <- (pd_tail_tail_slice weeks col Hw). reflexivity.
Qed.

Lemma individual_volatilities_match_witness :
  Core.calculate_individual_volatilities ex_two_frame ["SPY"%string] 13
    !! "SPY"%string
  = Some (Core.calculate_etf_volatility [100; 102; 101]%R 13).
Proof.
  rewrite (individual_volatilities_match ex_two_frame ["SPY"%string] 13 "SPY")
    by lia.
  reflexivity.
Defined.

(** X24: the volatility looks only at the trailing window: with at least
    weeks + 1 prices (weeks >= 0), older prices do not change it. *)
Theorem volatility_uses_trailing_window (older recent : list R) (weeks : Z) :
  (0 <= weeks)%Z ->
  Z.of_nat (length recent) = (weeks + 1)%Z ->
  Core.calculate_etf_volatility (older ++ recent) weeks
  = Core.calculate_etf_volatility recent weeks.
Proof.
  intros Hw Hlen. unfold Core.calculate_etf_volatility.
  assert (Hslice : forall l : list R,
            (weeks + 1 <= Z.of_nat (length l))%Z ->
            Core.tail_slice
              ((if (Z.of_nat (length l) <? weeks + 1)%Z
                then (Z.of_nat (length l) - 1)%Z else weeks) + 1) l
            = drop (length l - Z.to_nat (weeks + 1)) l).
  { intros l Hl. unfold Core.tail_slice.
    destruct (Z.of_nat (length l) <? weeks + 1)%Z eqn:E;
      [apply Z.ltb_lt in E; lia |].
    destruct (0 <? weeks + 1)%Z eqn:E1; [| apply Z.ltb_ge in E1; lia].
    reflexivity. }
  rewrite (Hslice (older ++ recent)) by (rewrite length_app; lia).
  rewrite (Hslice recent) by lia.
  rewrite length_app.
  replace (length older + length recent - Z.to_nat (weeks + 1))%nat
    with (length older) by lia.
  replace (length recent - Z.to_nat (weeks + 1))%nat with 0%nat by lia.
  rewrite drop_app_length. reflexivity.
Qed.

Lemma volatility_uses_trailing_window_witness :
  Core.calculate_etf_volatility ([90; 95] ++ [100; 102; 101])%R 2
  = Core.calculate_etf_volatility [100; 102; 101]%R 2.
Proof.
  apply volatility_uses_trailing_window; [lia | reflexivity].
Defined.

(** *** Portfolio series *)

Lemma series_step_head (df : Core.Frame)
    (fbis_params : gmap string Core.ParamEntry)
    (acc acc' : list R * list R) (t : string) (w a b : R) :
  Core.series_step df fbis_params acc (t, w) = Ok acc' ->
  head acc.1 = Some a -> head acc.2 = Some b ->
  (forall col p0,
      Core.fr_columns df !! (t +:+ "_close") = Some col ->
      head col = Some p0 -> p0 <> 0%R) ->
  match Core.fr_columns df !! (t +:+ "_close") with
  | Some _ =>
      head acc'.1 = Some (a + w)%R
      /\ head acc'.2
         = Some (b + (1 + Core.get_shift fbis_params t) * w)%R
  | None => acc' = acc
  end.
Proof.
  intros Hstep Ha Hb Hnz. unfold Core.series_step in Hstep.
  destruct acc as [pv pf]. simpl in Ha, Hb.
  destruct (Core.fr_columns df !! (t +:+ "_close")) as [prices |] eqn:Hcol;
    [| injection Hstep as <-; reflexivity].
  destruct prices as [| p0 tl]; [discriminate |].
  assert (Hp0 : p0 <> 0%R) by (apply (Hnz (p0 :: tl) p0); reflexivity).
  unfold Core.calculate_ema in Hstep.
  destruct (Core.get_period fbis_params t + 1 =? 0)%Z;
    cbn [mbind result_bind] in Hstep; [discriminate |].
  injection Hstep as <-. simpl.
  destruct pv as [| a0 pv']; [discriminate |].
  destruct pf as [| b0 pf']; [discriminate |].
  simpl in *. injection Ha as ->. injection Hb as ->.
  split; f_equal; field; exact Hp0.
Qed.

Lemma series_loop_head (df : Core.Frame)
    (fbis_params : gmap string Core.ParamEntry)
    (allocations : list (string * R)) :
  (forall t w col p0,
      (t, w) ∈ allocations ->
      Core.fr_columns df !! (t +:+ "_close") = Some col ->
      head col = Some p0 -> p0 <> 0%R) ->
  forall acc acc' a b,
    Core.series_loop df fbis_params allocations acc = Ok acc' ->
    head acc.1 = Some a -> head acc.2 = Some b ->
    head acc'.1
    = Some (a + Core.Rsum (present_allocations df allocations).*2)%R
    /\ head acc'.2
       = Some (b + Core.Rsum
                     (map (fun item : string * R =>
                             (1 + Core.get_shift fbis_params item.1)
                             * item.2)%R
                          (present_allocations df allocations)))%R.
Proof.
  unfold present_allocations.
  induction allocations as [| [t w] rest IH]; intros Hnz acc acc' a b H Ha Hb.
  - simpl in *. injection H as <-. rewrite Ha, Hb.
    split; f_equal; lra.
  - cbn [Core.series_loop] in H.
    destruct (Core.series_step df fbis_params acc (t, w))
      as [acc1 | e] eqn:Hstep; cbn [mbind result_bind] in H;
      [| discriminate].
    assert (Hnz_t : forall col p0,
              Core.fr_columns df !! (t +:+ "_close") = Some col ->
              head col = Some p0 -> p0 <> 0%R).
    { intros col p0 Hc. apply (Hnz t w); [left | exact Hc]. }
    pose proof (series_step_head df fbis_params acc acc1 t w a b
                  Hstep Ha Hb Hnz_t) as Hhead.
    assert (Hrest : forall t' w' col p0,
              (t', w') ∈ rest ->
              Core.fr_columns df !! (t' +:+ "_close") = Some col ->
              head col = Some p0 -> p0 <> 0%R).
    { intros t' w' col p0 Hin. apply (Hnz t' w'). right. exact Hin. }
    simpl.
    destruct (Core.fr_columns df !! (t +:+ "_close")) as [col |] eqn:Hcol.
    + destruct Hhead as [Ha1 Hb1].
      destruct (IH Hrest acc1 acc' _ _ H Ha1 Hb1) as [H1 H2].
      rewrite H1, H2. simpl.
      change (list_fmap (string * R)%type R snd ?l) with l.*2.
      split; f_equal; lra.
    + rewrite Hhead in H.
      apply (IH Hrest acc acc' a b H Ha Hb).
Qed.

(** X25: the normalised portfolio starts at the total weight of the
    instruments that have data.  On a table with at least one date and no
    zero first price, the first portfolio value is the sum of the weights
    of the allocations with a close column, the first support value is
    the sum of those weights each scaled by (1 + shift), and the dates
    are returned unchanged. *)
Theorem portfolio_series_starts_at_total_weight (df : Core.Frame)
    (allocations : list (string * R))
    (fbis_params : gmap string Core.ParamEntry)
    (dates : list Z) (portfolio_values portfolio_fbis : list R) :
  Core.fr_dates df <> [] ->
  (forall t w col p0,
      (t, w) ∈ allocations ->
      Core.fr_columns df !! (t +:+ "_close") = Some col ->
      head col = Some p0 -> p0 <> 0%R) ->
  Core.calculate_portfolio_series df allocations fbis_params
  = Ok (dates, portfolio_values, portfolio_fbis) ->
  dates = Core.fr_dates df
  /\ head portfolio_values
     = Some (Core.Rsum (present_allocations df allocations).*2)
  /\ head portfolio_fbis
     = Some (Core.Rsum
               (map (fun item : string * R =>
                       (1 + Core.get_shift fbis_params item.1) * item.2)%R
                    (present_allocations df allocations))).
Proof.
  intros Hdates Hnz H. unfold Core.calculate_portfolio_series in H.
  destruct (Core.series_loop df fbis_params allocations _)
    as [[pv pf] | e] eqn:Hloop; cbn [mbind result_bind] in H;
    [| discriminate].
  injection H as <- <- <-. split; [reflexivity |].
  assert (Hzero : head (repeat 0%R (length (Core.fr_dates df))) = Some 0%R).
  { destruct (Core.fr_dates df); [contradiction | reflexivity]. }
  destruct (series_loop_head df fbis_params allocations Hnz _ _ 0%R 0%R
              Hloop Hzero Hzero) as [H1 H2].
  simpl in H1, H2. rewrite H1, H2. split; f_equal; lra.
Qed.

Lemma portfolio_series_starts_at_total_weight_witness :
  exists dates portfolio_values portfolio_fbis,
    Core.calculate_portfolio_series
      ex_two_frame [("SPY"%string, 0.6%R); ("QQQ"%string, 0.4%R)] ∅
    = Ok (dates, portfolio_values, portfolio_fbis)
    /\ dates = [0; 7; 14]%Z
    /\ head portfolio_values = Some (Core.Rsum [0.6; 0.4]%R).
Proof.
  assert (Hok : exists d pv pf,
            Core.calculate_portfolio_series
              ex_two_frame [("SPY"%string, 0.6%R); ("QQQ"%string, 0.4%R)] ∅
            = Ok (d, pv, pf)).
  { do 3 eexists. reflexivity. }
  destruct Hok as (d & pv & pf & Hok).
  exists d, pv, pf. split; [exact Hok |].
  destruct (portfolio_series_starts_at_total_weight
              ex_two_frame [("SPY"%string, 0.6%R); ("QQQ"%string, 0.4%R)] ∅
              d pv pf) as (Hd & Hpv & _); [discriminate | | exact Hok |].
  - intros t w col p0 Hin Hcol Hhead.
    apply elem_of_cons in Hin as [[= -> ->] | Hin].
    + vm_compute in Hcol. injection Hcol as <-.
      injection Hhead as <-. lra.
    + apply list_elem_of_singleton in Hin as [= -> ->].
      vm_compute in Hcol. injection Hcol as <-.
      injection Hhead as <-. lra.
  - split; [exact Hd | exact Hpv].
Defined.

(** *** Portfolio exposure *)

Lemma Rsum_snoc (l : list R) (x : R) :
  Core.Rsum (l ++ [x]) = (Core.Rsum l + x)%R.
Proof.
  induction l as [| a tl IH]; simpl; [lra |]. rewrite IH. lra.
Qed.

Section ExposureLoop.
Variable df : Core.Frame.
Variable asset_classes : gmap string string.
Variable fbis_params : gmap string Core.ParamEntry.
Variable portfolio_value : R.

Lemma risk_step_spec (acc acc' : list Core.RiskRow * gmap string Core.ClassSummary)
    (t : string) (w : R) :
  Core.risk_step df asset_classes fbis_params portfolio_value acc (t, w)
  = Ok acc' ->
  summary_consistent acc.1 acc.2 ->
  summary_consistent acc'.1 acc'.2
  /\ match Core.fr_columns df !! (t +:+ "_close") with
     | Some _ =>
         exists row,
           acc'.1 = acc.1 ++ [row]
           /\ Core.row_ticker row = t
           /\ Core.row_allocation row = w
           /\ Core.row_asset_class row
              = default "Unknown"%string (asset_classes !! t)
     | None => acc' = acc
     end.
Proof.
  intros Hstep Hcons. unfold Core.risk_step in Hstep.
  destruct acc as [rows summary]. simpl in Hcons.
  destruct (Core.fr_columns df !! (t +:+ "_close")) as [prices |];
    [| injection Hstep as <-; auto].
  destruct (last prices) as [cp |]; [| discriminate].
  destruct (Core.calculate_ema prices _) as [ema | e];
    cbn [mbind result_bind] in Hstep; [| discriminate].
  destruct (last ema) as [e |]; [| discriminate].
  injection Hstep as <-. simpl.
  set (ac0 := default "Unknown"%string (asset_classes !! t)) in *.
  split; [| eexists; repeat split].
  unfold summary_consistent in *.
  intros ac. specialize (Hcons ac). unfold class_rows in *.
  rewrite List.filter_app. simpl.
  destruct (decide (ac0 = ac)) as [<- | Hne].
  - rewrite lookup_insert_eq. simpl.
    rewrite bool_decide_eq_true_2 by reflexivity.
    rewrite length_app, map_app. simpl. rewrite Rsum_snoc.
    destruct (summary !! ac0) as [s |]; simpl.
    + destruct Hcons as (Hc & _ & Hw). rewrite Hc, Hw.
      split; [lia |]. split; [lia | reflexivity].
    + rewrite Hcons. simpl. split; [reflexivity |].
      split; [lia | lra].
  - rewrite lookup_insert_ne by exact Hne.
    rewrite bool_decide_eq_false_2 by exact Hne.
    rewrite app_nil_r. exact Hcons.
Qed.

Lemma risk_loop_spec (allocations : list (string * R)) :
  forall acc acc',
    Core.risk_loop df asset_classes fbis_params portfolio_value
                   allocations acc = Ok acc' ->
    summary_consistent acc.1 acc.2 ->
    summary_consistent acc'.1 acc'.2
    /\ exists new_rows,
         acc'.1 = acc.1 ++ new_rows
         /\ map Core.row_ticker new_rows
            = (present_allocations df allocations).*1
         /\ map Core.row_allocation new_rows
            = (present_allocations df allocations).*2
         /\ Forall (fun row =>
                      Core.row_asset_class row
                      = default "Unknown"%string
                                (asset_classes !! Core.row_ticker row))
                   new_rows.
Proof.
  unfold present_allocations.
  induction allocations as [| [t w] rest IH]; intros acc acc' H Hcons.
  - simpl in H. injection H as <-. split; [exact Hcons |].
    exists []. rewrite app_nil_r. repeat split. constructor.
  - cbn [Core.risk_loop] in H.
    destruct (Core.risk_step df asset_classes fbis_params portfolio_value
                             acc (t, w)) as [acc1 | e] eqn:Hstep;
      cbn [mbind result_bind] in H; [| discriminate].
    destruct (risk_step_spec acc acc1 t w Hstep Hcons) as [Hcons1 Hrow].
    destruct (IH acc1 acc' H Hcons1) as (Hcons' & rows & Hrows & Ht & Ha & Hc).
    split; [exact Hcons' |]. simpl.
    destruct (Core.fr_columns df !! (t +:+ "_close")).
    + destruct Hrow as (row & Hacc1 & Hrt & Hra & Hrc).
      exists (row :: rows). rewrite Hrows, Hacc1, <- app_assoc. simpl.
      split; [reflexivity |]. rewrite Hrt, Hra, Ht, Ha.
      split; [reflexivity |]. split; [reflexivity |].
      constructor; [rewrite Hrt; exact Hrc | exact Hc].
    + subst acc1. exists rows. auto.
Qed.

(** X26: when [calculate_portfolio_risk] returns, its rows are the
    allocations that have a close column, in order and with their
    allocation; a ticker without asset class is filed under 'Unknown';
    and the summary has an entry exactly for the asset classes that have
    rows, with a count equal to the number of rows of the class and a
    weight equal to the sum of their allocations. *)
Theorem portfolio_risk_rows_and_summary (allocations : list (string * R))
    (risk_data : list Core.RiskRow)
    (asset_class_summary : gmap string Core.ClassSummary) :
  Core.calculate_portfolio_risk df allocations asset_classes fbis_params
                                portfolio_value
  = Ok (risk_data, asset_class_summary) ->
  map Core.row_ticker risk_data = (present_allocations df allocations).*1
  /\ map Core.row_allocation risk_data
     = (present_allocations df allocations).*2
  /\ Forall (fun row =>
               Core.row_asset_class row
               = default "Unknown"%string
                         (asset_classes !! Core.row_ticker row))
            risk_data
  /\ forall ac,
       match asset_class_summary !! ac with
       | Some s =>
           Core.sum_count s = length (class_rows ac risk_data)
           /\ (1 <= Core.sum_count s)%nat
           /\ Core.sum_weight s
              = Core.Rsum (map Core.row_allocation (class_rows ac risk_data))
       | None => class_rows ac risk_data = []
       end.
Proof.
  intros H. unfold Core.calculate_portfolio_risk in H.
  destruct (Core.risk_loop df asset_classes fbis_params portfolio_value
                           allocations ([], ∅)) as [[rows summary] | e]
    eqn:Hloop; [| discriminate].
  injection H as <- <-.
  destruct (risk_loop_spec allocations ([], ∅) (rows, summary) Hloop)
    as (Hcons & new_rows & Hrows & Ht & Ha & Hc).
  { unfold summary_consistent. intros ac. simpl.
    rewrite lookup_empty. reflexivity. }
  unfold summary_consistent in Hcons. simpl in Hrows, Hcons.
  subst new_rows.
  split; [exact Ht |]. split; [exact Ha |]. split; [exact Hc |].
  intros ac. specialize (Hcons ac). rewrite lookup_fmap.
  destruct (summary !! ac) as [s |]; simpl; exact Hcons.
Qed.

End ExposureLoop.

Lemma portfolio_risk_rows_and_summary_witness :
  exists risk_data asset_class_summary,
    Core.calculate_portfolio_risk
      ex_two_frame [("SPY"%string, 60%R); ("XLK"%string, 40%R)]
      {[ "SPY"%string := "Core Equity"%string ]} ∅ 1000000
    = Ok (risk_data, asset_class_summary)
    /\ map Core.row_ticker risk_data = ["SPY"%string]
    /\ map Core.row_allocation risk_data = [60%R].
Proof.
  assert (Hok : exists rows summary,
            Core.calculate_portfolio_risk
              ex_two_frame [("SPY"%string, 60%R); ("XLK"%string, 40%R)]
              {[ "SPY"%string := "Core Equity"%string ]} ∅ 1000000
            = Ok (rows, summary)).
  { do 2 eexists. reflexivity. }
  destruct Hok as (rows & summary & Hok).
  exists rows, summary. split; [exact Hok |].
  destruct (portfolio_risk_rows_and_summary _ _ _ _ _ _ _ Hok)
    as (Ht & Ha & _).
  split; [exact Ht | exact Ha].
Defined.
